(** * Mi Flora poller: a shallow embedding of [miflora_poller.py]

    The module-level retry primitives ([write_ble], [read_ble],
    [write_read_ble]) and the [MiFloraPoller] class are embedded as
    functions over an explicit poller record and an explicit world.

    - A timestamp ([datetime]) is an integer number of microseconds since
      1970-01-01 00:00:00, a [timedelta] an integer number of
      microseconds; [datetime.now()] is answered by an oracle [clock],
      indexed by the number of clock reads made so far.  Adding the cache
      timeout to a timestamp, or subtracting it, raises [OverflowError]
      when the result is not between [datetime.min] and [datetime.max].
      The fixed 24 hours that [firmware_version] subtracts from a reading
      of the clock are subtracted unchecked: [datetime.now()] is never
      within a day of [datetime.min].
    - One [pygatt] session (start, connect, operate, stop) is answered by
      an oracle [transport], indexed by the number of sessions opened so
      far: [Some data] when the whole [try] block runs through, [None]
      when anything in it raises.
    - A Python exception is a [Raise] result that still carries the poller,
      because the object outlives the exception.
    - The retry loops of the source need not terminate; they are run with
      fuel, and a run that has used all its fuel is [OutOfFuel] (for the
      primitives: [StillRunning]) together with the state reached. *)

From Stdlib Require Import ZArith Lia Floats.PrimFloat Uint63.
From stdpp Require Import gmap strings list.

Open Scope Z_scope.

(** ** Bytes, strings, time *)

Definition byte_val (b : Byte.byte) : Z := Z.of_N (Byte.to_N b).

(** [sum(bytes)] *)
Definition sum (bs : list Byte.byte) : Z :=
  foldl (fun acc b => acc + byte_val b) 0 bs.

(** [''.join(chr(n) for n in bs)], also [''.join(map(chr, bs))]: each byte
    becomes the character with that code. *)
Definition chr_join (bs : list Byte.byte) : string :=
  String.string_of_list_ascii (map Ascii.ascii_of_byte bs).

(** [a >= b] on Python strings: lexicographic on character codes. *)
Definition str_ge (a b : string) : bool := String.leb b a.

(** [timedelta(seconds=n)] and [timedelta(hours=n)], in microseconds. *)
Definition seconds (n : Z) : Z := n * 1000000.
Definition hours (n : Z) : Z := seconds (n * 3600).

(** [datetime.min], 0001-01-01 00:00:00, and [datetime.max],
    9999-12-31 23:59:59.999999, counted from 1970-01-01 00:00:00. *)
Definition DATETIME_MIN : Z := seconds (-719162 * 86400).
Definition DATETIME_MAX : Z := seconds (2932897 * 86400) - 1.

Definition in_datetime_range (t : Z) : bool :=
  (DATETIME_MIN <=? t) && (t <=? DATETIME_MAX).

(** [float(n)] for a non-negative integer below 2^53, and [x / y]. *)
Definition float_of_int (n : Z) : float := PrimFloat.of_uint63 (Uint63.of_Z n).

Definition MI_TEMPERATURE : string := "temperature".
Definition MI_LIGHT : string := "light".
Definition MI_MOISTURE : string := "moisture".
Definition MI_CONDUCTIVITY : string := "conductivity".
Definition MI_BATTERY : string := "battery".

(** ** The world: clock reads, sessions, and call counts *)

Record world := {
  ticks : nat;          (* calls of datetime.now() so far *)
  sessions : nat;       (* pygatt sessions opened so far *)
  channel_calls : nat;  (* calls of read_ble / write_read_ble / write_ble *)
  fills : nat           (* calls of fill_cache *)
}.

Definition world0 : world :=
  {| ticks := 0; sessions := 0; channel_calls := 0; fills := 0 |}.

Definition tick (w : world) : world :=
  {| ticks := S (ticks w); sessions := sessions w;
     channel_calls := channel_calls w; fills := fills w |}.

Definition open_session (w : world) : world :=
  {| ticks := ticks w; sessions := S (sessions w);
     channel_calls := channel_calls w; fills := fills w |}.

Definition count_call (w : world) : world :=
  {| ticks := ticks w; sessions := sessions w;
     channel_calls := S (channel_calls w); fills := fills w |}.

Definition count_fill (w : world) : world :=
  {| ticks := ticks w; sessions := sessions w;
     channel_calls := channel_calls w; fills := S (fills w) |}.

(** What one session does between [connect] and [stop]. *)
Inductive op :=
| CharWrite (handle : Z) (value : list Byte.byte)
| CharRead (handle : Z)
| WriteThenRead (whandle : Z) (value : list Byte.byte) (rhandle : Z).

(** Result of a module-level primitive run with fuel. *)
Inductive outcome (A : Type) :=
| Returns (a : A) (w : world)
| StillRunning (attempt : Z) (w : world).
Arguments Returns {A} a w.
Arguments StillRunning {A} attempt w.

(** ** Exceptions, values, the poller object *)

Inductive exn :=
| IndexError
| TypeError
| KeyError (key : string)
| AttributeError (attr : string)
| OverflowError
| IOError (msg : string) (mac : string).

Inductive value :=
| VInt (z : Z)
| VFloat (f : float).

(** The fields of [MiFloraPoller] that the code reads.  [adapter] is stored
    and never used; [lock] is only taken and released around the refresh,
    which a single caller cannot observe.  [battery] is not assigned by
    [__init__]. *)
Record MiFloraPoller := {
  _mac : string;
  _cache : option (list Byte.byte);
  _cache_timeout : Z;
  _last_read : option Z;
  _fw_last_read : Z;
  retries : Z;
  ble_timeout : Z;
  _firmware_version : option string;
  battery : option Z
}.

Definition with_cache (c : option (list Byte.byte)) (p : MiFloraPoller) :=
  {| _mac := _mac p; _cache := c; _cache_timeout := _cache_timeout p;
     _last_read := _last_read p; _fw_last_read := _fw_last_read p;
     retries := retries p; ble_timeout := ble_timeout p;
     _firmware_version := _firmware_version p; battery := battery p |}.

Definition with_last_read (t : option Z) (p : MiFloraPoller) :=
  {| _mac := _mac p; _cache := _cache p; _cache_timeout := _cache_timeout p;
     _last_read := t; _fw_last_read := _fw_last_read p;
     retries := retries p; ble_timeout := ble_timeout p;
     _firmware_version := _firmware_version p; battery := battery p |}.

Definition with_fw_last_read (t : Z) (p : MiFloraPoller) :=
  {| _mac := _mac p; _cache := _cache p; _cache_timeout := _cache_timeout p;
     _last_read := _last_read p; _fw_last_read := t;
     retries := retries p; ble_timeout := ble_timeout p;
     _firmware_version := _firmware_version p; battery := battery p |}.

Definition with_firmware_version (v : option string) (p : MiFloraPoller) :=
  {| _mac := _mac p; _cache := _cache p; _cache_timeout := _cache_timeout p;
     _last_read := _last_read p; _fw_last_read := _fw_last_read p;
     retries := retries p; ble_timeout := ble_timeout p;
     _firmware_version := v; battery := battery p |}.

Definition with_battery (b : option Z) (p : MiFloraPoller) :=
  {| _mac := _mac p; _cache := _cache p; _cache_timeout := _cache_timeout p;
     _last_read := _last_read p; _fw_last_read := _fw_last_read p;
     retries := retries p; ble_timeout := ble_timeout p;
     _firmware_version := _firmware_version p; battery := b |}.

Definition with_retries (r : Z) (p : MiFloraPoller) :=
  {| _mac := _mac p; _cache := _cache p; _cache_timeout := _cache_timeout p;
     _last_read := _last_read p; _fw_last_read := _fw_last_read p;
     retries := r; ble_timeout := ble_timeout p;
     _firmware_version := _firmware_version p; battery := battery p |}.

(** Result of a method: it returned, it raised, or the fuel ran out inside
    one of the retry loops. *)
Inductive result (A : Type) :=
| Ok (a : A) (self : MiFloraPoller) (w : world)
| Raise (e : exn) (self : MiFloraPoller) (w : world)
| OutOfFuel (self : MiFloraPoller) (w : world).
Arguments Ok {A} a self w.
Arguments Raise {A} e self w.
Arguments OutOfFuel {A} self w.

Definition poller_of {A} (r : result A) : MiFloraPoller :=
  match r with Ok _ p _ | Raise _ p _ | OutOfFuel p _ => p end.

Definition world_of {A} (r : result A) : world :=
  match r with Ok _ _ w | Raise _ _ w | OutOfFuel _ w => w end.

Definition M (A : Type) : Type := MiFloraPoller -> world -> result A.

Definition ret {A} (a : A) : M A := fun self w => Ok a self w.

Definition bind {A B} (c : M A) (k : A -> M B) : M B :=
  fun self w =>
    match c self w with
    | Ok a self' w' => k a self' w'
    | Raise e self' w' => Raise e self' w'
    | OutOfFuel self' w' => OutOfFuel self' w'
    end.

#[global] Instance M_ret : MRet M := @ret.
#[global] Instance M_bind : MBind M := fun A B k c => bind c k.

Definition raise {A} (e : exn) : M A := fun self w => Raise e self w.
Definition get_self : M MiFloraPoller := fun self w => Ok self self w.
Definition update (f : MiFloraPoller -> MiFloraPoller) : M unit :=
  fun self w => Ok tt (f self) w.
Definition observe (f : world -> world) : M unit :=
  fun self w => Ok tt self (f w).

(** A call of a module-level primitive from a method. *)
Definition call {A} (c : world -> outcome A) : M A :=
  fun self w =>
    match c w with
    | Returns a w' => Ok a self w'
    | StillRunning _ w' => OutOfFuel self w'
    end.

(** [bs[i]] for a constant index [i >= 0]. *)
Definition getitem (bs : list Byte.byte) (i : nat) : M Z :=
  match bs !! i with
  | Some b => ret (byte_val b)
  | None => raise IndexError
  end.

(** [t - d] and [t + d] for a [datetime] [t] and a [timedelta] [d]:
    [OverflowError] when the result is out of range. *)
Definition datetime_sub (t d : Z) : M Z :=
  if in_datetime_range (t - d) then ret (t - d) else raise OverflowError.

Definition datetime_add (t d : Z) : M Z :=
  if in_datetime_range (t + d) then ret (t + d) else raise OverflowError.

Section Program.

Variable clock : nat -> Z.
Variable transport : nat -> string -> op -> option (list Byte.byte).

(** [datetime.now()] *)
Definition now : M Z := fun self w => Ok (clock (ticks w)) self (tick w).

(** ** The retry primitives *)

(** The inner [while True:] of the three primitives.  Each round opens one
    session.  If the [try] block runs through, the function returns; if
    anything raises, [attempt] is incremented and the round is repeated.
    The loop has no [break] and no test, so it is left only by the
    [return]. *)
Fixpoint while_True (fuel : nat) (mac : string) (o : op) (attempt : Z)
    (w : world) : outcome (option (list Byte.byte)) :=
  match fuel with
  | O => StillRunning attempt w
  | S fuel' =>
      match transport (sessions w) mac o with
      | Some data => Returns (Some data) (open_session w)
      | None => while_True fuel' mac o (attempt + 1) (open_session w)
      end
  end.

(** The outer [while attempt <= retries:] around it, followed by
    [return None].  Control never comes back from the inner loop to the
    test, so the test is evaluated once, with [attempt = 0]. *)
Definition retry (fuel : nat) (mac : string) (o : op) (retries : Z)
    (w : world) : outcome (option (list Byte.byte)) :=
  let attempt := 0 in
  if attempt <=? retries
  then while_True fuel mac o attempt (count_call w)
  else Returns None (count_call w).

Definition write_ble (fuel : nat) (mac : string) (handle : Z)
    (value : list Byte.byte) (retries timeout : Z) (w : world)
    : outcome bool :=
  match retry fuel mac (CharWrite handle value) retries w with
  | Returns (Some _) w' => Returns true w'
  | Returns None w' => Returns false w'
  | StillRunning a w' => StillRunning a w'
  end.

Definition read_ble (fuel : nat) (mac : string) (handle : Z)
    (retries timeout : Z) (w : world) : outcome (option (list Byte.byte)) :=
  retry fuel mac (CharRead handle) retries w.

Definition write_read_ble (fuel : nat) (mac : string) (retries timeout : Z)
    (w : world) : outcome (option (list Byte.byte)) :=
  retry fuel mac (WriteThenRead 0x33 [Byte.xa0; Byte.x1f] 0x35) retries w.

(** ** The class [MiFloraPoller] *)

(** [__init__(self, mac, adapter, cache_timeout=600, retries=3)], for a
    [cache_timeout] that [timedelta(seconds=cache_timeout)] accepts; for
    any other the source raises [OverflowError] and builds no poller. *)
Definition __init__ (mac : string) (cache_timeout retries : Z) (w : world)
    : MiFloraPoller * world :=
  ({| _mac := mac;
      _cache := None;
      _cache_timeout := seconds cache_timeout;
      _last_read := None;
      _fw_last_read := clock (ticks w);
      retries := retries;
      ble_timeout := 10;
      _firmware_version := None;
      battery := None |}, tick w).

(** [name(self)]: the generator iterates over the value [read_ble]
    returned; iterating over [None] is a [TypeError]. *)
Definition name (fuel : nat) : M string :=
  self ← get_self;
  name ← call (read_ble fuel (_mac self) 0x03 (retries self) (ble_timeout self));
  match name with
  | Some bs => mret (chr_join bs)
  | None => raise TypeError
  end.

(** The test of [firmware_version]:
    [(self._firmware_version is None) or
     (datetime.now() - timedelta(hours=24) > self._fw_last_read)].
    [or] does not evaluate its right operand when the left one holds. *)
Definition firmware_read_due : M bool :=
  self ← get_self;
  match _firmware_version self with
  | None => mret true
  | Some _ => t ← now; mret (t - hours 24 >? _fw_last_read self)
  end.

(** [firmware_version(self)]; the call of [read_ble] passes no [timeout],
    so the default 20 applies. *)
Definition firmware_version (fuel : nat) : M (option string) :=
  due ← firmware_read_due;
  (if due : bool then
     t ← now;
     update (with_fw_last_read t);;
     self ← get_self;
     res ← call (read_ble fuel (_mac self) 0x38 (retries self) 20);
     match res with
     | None =>
         update (with_battery (Some 0));;
         update (with_firmware_version None)
     | Some res =>
         b ← getitem res 0;
         update (with_battery (Some b));;
         update (with_firmware_version (Some (chr_join (drop 2 res))))
     end
   else mret tt);;
  self ← get_self;
  mret (_firmware_version self).

(** [battery_level(self)] *)
Definition battery_level (fuel : nat) : M Z :=
  firmware_version fuel;;
  self ← get_self;
  match battery self with
  | Some b => mret b
  | None => raise (AttributeError "battery")
  end.

(** [_check_data(self)].  On Python 3, comparing [None] with a string by
    [>=] is a [TypeError]. *)
Definition _check_data : M unit :=
  self ← get_self;
  match _cache self with
  | None => mret tt
  | Some cache =>
      b7 ← getitem cache 7;
      if b7 >? 100 then update (with_cache None)
      else
        let rule3 : M unit :=
          if sum cache =? 0 then update (with_cache None) else mret tt in
        match _firmware_version self with
        | None => raise TypeError
        | Some fw =>
            if str_ge fw "2.6.6" then
              if sum (drop 10 cache) =? 0 then update (with_cache None)
              else rule3
            else rule3
        end
  end.

(** [not firmware_version]: [None] and the empty string are false. *)
Definition truthy (v : option string) : bool :=
  match v with
  | None | Some EmptyString => false
  | Some _ => true
  end.

(** The assignment made on both failure paths of [fill_cache]:
    [self._last_read = datetime.now() - self._cache_timeout +
                       timedelta(seconds=300)]. *)
Definition back_off : M unit :=
  t ← now;
  self ← get_self;
  t ← datetime_sub t (_cache_timeout self);
  t ← datetime_add t (seconds 300);
  update (with_last_read (Some t)).

(** [fill_cache(self)] *)
Definition fill_cache (fuel : nat) : M unit :=
  observe count_fill;;
  firmware_version ← firmware_version fuel;
  if negb (truthy firmware_version) then back_off
  else
    self ← get_self;
    data ← call (write_read_ble fuel (_mac self) (retries self) (ble_timeout self));
    update (with_cache data);;
    _check_data;;
    self ← get_self;
    match _cache self with
    | Some _ => t ← now; update (with_last_read (Some t))
    | None => back_off
    end.

(** [_parse_data(self)]; the dictionary is built by four assignments. *)
Definition _parse_data : M (gmap string value) :=
  self ← get_self;
  match _cache self with
  | None => raise TypeError
  | Some data =>
      let res : gmap string value := ∅ in
      d1 ← getitem data 1; d0 ← getitem data 0;
      let res := <[MI_TEMPERATURE :=
                     VFloat (PrimFloat.div (float_of_int (d1 * 256 + d0))
                                           (float_of_int 10))]> res in
      d7 ← getitem data 7;
      let res := <[MI_MOISTURE := VInt d7]> res in
      d4 ← getitem data 4; d3 ← getitem data 3;
      let res := <[MI_LIGHT := VInt (d4 * 256 + d3)]> res in
      d9 ← getitem data 9; d8 ← getitem data 8;
      let res := <[MI_CONDUCTIVITY := VInt (d9 * 256 + d8)]> res in
      mret res
  end.

(** The test under the lock in [parameter_value]:
    [(read_cached is False) or (self._last_read is None) or
     (datetime.now() - self._cache_timeout > self._last_read)]. *)
Definition refresh_due (read_cached : bool) : M bool :=
  self ← get_self;
  if negb read_cached then mret true
  else match _last_read self with
       | None => mret true
       | Some last_read =>
           t ← now;
           t ← datetime_sub t (_cache_timeout self);
           mret (t >? last_read)
       end.

(** The [with self.lock:] block of [parameter_value]. *)
Definition locked_refresh (fuel : nat) (read_cached : bool) : M unit :=
  due ← refresh_due read_cached;
  if due : bool then fill_cache fuel else mret tt.

(** [self._cache and (len(self._cache) == 16)] *)
Definition cache_usable (p : MiFloraPoller) : bool :=
  match _cache p with
  | None | Some [] => false
  | Some cache => Z.of_nat (length cache) =? 16
  end.

(** The [if ... else ...] that follows the lock in [parameter_value]. *)
Definition serve_or_fail (fuel : nat) (parameter : string) : M value :=
  self ← get_self;
  if cache_usable self then
    res ← _parse_data;
    match res !! parameter with
    | Some v => mret v
    | None => raise (KeyError parameter)
    end
  else
    fill_cache fuel;;
    self ← get_self;
    raise (IOError "Could not read data from Mi Flora sensor %s" (_mac self)).

(** [parameter_value(self, parameter, read_cached=True)] *)
Definition parameter_value (fuel : nat) (parameter : string)
    (read_cached : bool) : M value :=
  if String.eqb parameter MI_BATTERY then
    b ← battery_level fuel; mret (VInt b)
  else
    locked_refresh fuel read_cached;;
    serve_or_fail fuel parameter.

End Program.

(** ** Observations and concrete scenarios *)

Definition returned {A} (r : result A) : option A :=
  match r with Ok a _ _ => Some a | _ => None end.

Definition raised {A} (r : result A) : option exn :=
  match r with Raise e _ _ => Some e | _ => None end.

(** A transport on which every session fails. *)
Definition dead_transport (k : nat) (mac : string) (o : op)
    : option (list Byte.byte) := None.

(** A clock that stands still at [t]. *)
Definition frozen (t : Z) (k : nat) : Z := t.

Definition mac0 : string := "C4:7C:8D:00:00:01".

(** A poller as [__init__] leaves it, with the defaults
    [cache_timeout=600, retries=3], then holding [cache] and [fw]. *)
Definition holding (cache : option (list Byte.byte)) (fw : option string)
    : MiFloraPoller :=
  with_cache cache
    (with_firmware_version fw (fst (__init__ (frozen 0) mac0 600 3 world0))).

(** The payload of the end-to-end example. *)
Definition payload_e2e : list Byte.byte :=
  [Byte.xc8; Byte.x00; Byte.x00; Byte.x00; Byte.x2c; Byte.x01; Byte.x00;
   Byte.x2d; Byte.x00; Byte.x96; Byte.x00; Byte.x00; Byte.x00; Byte.x00;
   Byte.x00; Byte.x00].

(** Answer of the firmware characteristic: battery 99, a filler byte, and
    the characters of the version. *)
Definition fw_answer (version : list Byte.byte) : list Byte.byte :=
  Byte.x63 :: Byte.x00 :: version.

Definition v265 : list Byte.byte :=
  [Byte.x32; Byte.x2e; Byte.x36; Byte.x2e; Byte.x35].
Definition v266 : list Byte.byte :=
  [Byte.x32; Byte.x2e; Byte.x36; Byte.x2e; Byte.x36].

(** A device that always answers: the firmware characteristic with
    [version], the measurement in session [k] with [measure k], and
    everything else with no bytes. *)
Definition device (version : list Byte.byte)
    (measure : nat -> list Byte.byte) (k : nat) (mac : string) (o : op)
    : option (list Byte.byte) :=
  match o with
  | CharRead 0x38 => Some (fw_answer version)
  | CharRead _ => Some []
  | WriteThenRead _ _ _ => Some (measure k)
  | CharWrite _ _ => Some []
  end.

(** ** Definitions for the proofs

    Named parts of method bodies (each is shown equal to the part it names),
    observations on results, and relations between worlds. *)

(** The field [k] of the dictionary [_parse_data] builds from the cache
    of [p]. *)
Definition decoded (p : MiFloraPoller) (k : string) : option value :=
  returned (_parse_data p world0) ≫= lookup k.

(** The cache after [_check_data] ran on [p]. *)
Definition checked (p : MiFloraPoller) : option (list Byte.byte) :=
  _cache (poller_of (_check_data p world0)).

(** What [_check_data] does on a payload that has a byte 7, under a
    firmware version [fw]: the three rules, in order. *)
Definition rejects (fw : string) (cache : list Byte.byte) (b7 : Z) : bool :=
  (b7 >? 100)
  || (str_ge fw "2.6.6" && (sum (drop 10 cache) =? 0))
  || (sum cache =? 0).

(** From [self._cache = ...] on, given what [write_read_ble] returned. *)
Definition after_measurement (clock : nat -> Z)
    (data : option (list Byte.byte)) : M unit :=
  update (with_cache data);;
  _check_data;;
  self ← get_self;
  match _cache self with
  | Some _ => t ← now clock; update (with_last_read (Some t))
  | None => back_off clock
  end.

(** From [if not firmware_version:] on. *)
Definition after_firmware (clock : nat -> Z)
    (transport : nat -> string -> op -> option (list Byte.byte))
    (fuel : nat) (firmware_version : option string) : M unit :=
  if negb (truthy firmware_version) then back_off clock
  else
    self ← get_self;
    call (write_read_ble transport fuel (_mac self) (retries self)
            (ble_timeout self))
      ≫= after_measurement clock.

(** The body of the [if] in [firmware_version], followed by the [return]:
    what a call does once the read is due. *)
Definition firmware_read (clock : nat -> Z)
    (transport : nat -> string -> op -> option (list Byte.byte))
    (fuel : nat) : M (option string) :=
  (t ← now clock;
   update (with_fw_last_read t);;
   self ← get_self;
   res ← call (read_ble transport fuel (_mac self) 0x38 (retries self) 20);
   match res with
   | None =>
       update (with_battery (Some 0));;
       update (with_firmware_version None)
   | Some res =>
       b ← getitem res 0;
       update (with_battery (Some b));;
       update (with_firmware_version (Some (chr_join (drop 2 res))))
   end);;
  self ← get_self;
  mret (_firmware_version self).

(** The world a primitive has reached, returned or not. *)
Definition outcome_world {A} (o : outcome A) : world :=
  match o with Returns _ w | StillRunning _ w => w end.

(** Whatever its result, [c] leaves a world related by [R] to the one it
    started in. *)
Definition moves_by (R : relation world) {A} (c : M A) : Prop :=
  forall p w, R w (world_of (c p w)).

(** The counters only grow. *)
Definition grows (w w' : world) : Prop :=
  (ticks w <= ticks w')%nat /\ (sessions w <= sessions w')%nat
  /\ (channel_calls w <= channel_calls w')%nat /\ (fills w <= fills w')%nat.

(** The counter [f] stays. *)
Definition same (f : world -> nat) (w w' : world) : Prop := f w' = f w.

(** A clock that advances by one second at every read. *)
Definition ticking (k : nat) : Z := seconds (Z.of_nat k).

(** A device that answers its first session with no bytes and is in order
    from then on. *)
Definition hiccup (k : nat) (mac : string) (o : op)
    : option (list Byte.byte) :=
  if Nat.eqb k 0 then Some []
  else device v265 (fun _ => payload_e2e) k mac o.

(** A device whose first measurement is sixteen zero bytes and whose later
    measurements are one byte long.  Session 0 is the firmware read. *)
Definition fading (k : nat) : list Byte.byte :=
  if Nat.eqb k 1 then replicate 16 Byte.x00 else [Byte.x01].

(** [f] holds at the [k] integers from [n] on. *)
Fixpoint all_from (f : Z -> bool) (k : nat) (n : Z) : bool :=
  match k with
  | O => true
  | S k' => f n && all_from f k' (n + 1)
  end.

(** The temperature [_parse_data] computes from the raw 16-bit value [n]
    lies between 0.0 and 6553.5, and ten times it is [n] again. *)
Definition temperature_ok (n : Z) : bool :=
  let t := PrimFloat.div (float_of_int n) (float_of_int 10) in
  PrimFloat.leb 0%float t && PrimFloat.leb t 6553.5%float
  && PrimFloat.eqb (PrimFloat.mul t (float_of_int 10)) (float_of_int n).

(** The indices [_parse_data] reads. *)
Definition parsed_indices : list nat := [0; 1; 3; 4; 7; 8; 9]%nat.

(** [c] keeps the property [P] of the poller, however it ends. *)
Definition preserves (P : MiFloraPoller -> Prop) {A} (c : M A) : Prop :=
  forall p w, P p -> P (poller_of (c p w)).

(** What the constructor is given and no method assigns. *)
Definition config (p : MiFloraPoller) : string * Z * Z * Z :=
  (_mac p, _cache_timeout p, retries p, ble_timeout p).

(** Once a firmware version is stored, so is a battery level, and it is a
    byte. *)
Definition battery_known (p : MiFloraPoller) : Prop :=
  _firmware_version p <> None ->
  exists b, battery p = Some b /\ 0 <= b <= 255.

(** A cache that has a byte 7 has it at most 100 and is not all zero. *)
Definition cache_checked (p : MiFloraPoller) : Prop :=
  forall c b7, _cache p = Some c -> c !! 7%nat = Some b7 ->
               byte_val b7 <= 100 /\ 0 < sum c.

(** The calls a user of the class makes. *)
Inductive request :=
| Name
| FirmwareVersion
| BatteryLevel
| ParameterValue (parameter : string) (read_cached : bool)
| FillCache.

Definition forget {A} (r : result A) : result unit :=
  match r with
  | Ok _ p w => Ok tt p w
  | Raise e p w => Raise e p w
  | OutOfFuel p w => OutOfFuel p w
  end.

(** The call [q] on the poller, its value dropped. *)
Definition invoke (clock : nat -> Z)
    (transport : nat -> string -> op -> option (list Byte.byte))
    (fuel : nat) (q : request) : M unit :=
  fun p w =>
    match q with
    | Name => forget (name transport fuel p w)
    | FirmwareVersion => forget (firmware_version clock transport fuel p w)
    | BatteryLevel => forget (battery_level clock transport fuel p w)
    | ParameterValue parameter read_cached =>
        forget (parameter_value clock transport fuel parameter read_cached p w)
    | FillCache => forget (fill_cache clock transport fuel p w)
    end.

(** The call came back to the caller, with a value or an exception. *)
Definition finished {A} (r : result A) : bool :=
  match r with OutOfFuel _ _ => false | _ => true end.

(** The states of a poller built by [__init__] and then used through its
    methods, each call made after the one before came back. *)
Inductive reachable (clock : nat -> Z)
    (transport : nat -> string -> op -> option (list Byte.byte))
    (mac : string) (cache_timeout retries : Z)
    : MiFloraPoller -> world -> Prop :=
| reach_init w :
    reachable clock transport mac cache_timeout retries
      (fst (__init__ clock mac cache_timeout retries w))
      (snd (__init__ clock mac cache_timeout retries w))
| reach_call p w fuel q :
    reachable clock transport mac cache_timeout retries p w ->
    finished (invoke clock transport fuel q p w) = true ->
    reachable clock transport mac cache_timeout retries
      (poller_of (invoke clock transport fuel q p w))
      (world_of (invoke clock transport fuel q p w)).

(** The time [back_off] stores when the clock reads [t], if it can be
    computed. *)
Definition back_off_time (t timeout : Z) : option Z :=
  if in_datetime_range (t - timeout) then
    if in_datetime_range (t - timeout + seconds 300)
    then Some (t - timeout + seconds 300) else None
  else None.

(** The outcome of [datetime.now() - self._cache_timeout > last_read] when
    the clock reads [t], if the difference can be computed. *)
Definition cache_expired (t timeout last_read : Z) : option bool :=
  if in_datetime_range (t - timeout) then Some (t - timeout >? last_read)
  else None.

(** Unfolding the monad of methods. *)
Ltac step :=
  unfold mbind, M_bind, bind, mret, M_ret, ret, get_self, update, observe,
    raise, call, getitem, now in *; simpl in *.

(** Unfolding the two checked operations on timestamps as well. *)
Ltac step_time :=
  unfold datetime_sub, datetime_add in *; step.

Create HintDb world.

(** ** The retry primitives *)

Lemma while_True_failing transport mac o :
  (forall k, transport k mac o = None) ->
  forall fuel attempt w,
    while_True transport fuel mac o attempt w
    = StillRunning (attempt + Z.of_nat fuel)
        {| ticks := ticks w; sessions := sessions w + fuel;
           channel_calls := channel_calls w; fills := fills w |}.
Proof.
  intros Hdead. induction fuel as [|fuel IH]; intros attempt w.
  - simpl. f_equal; [lia|]. destruct w; simpl. f_equal. lia.
  - simpl. rewrite Hdead, IH. f_equal; [lia|].
    destruct w; simpl. f_equal. lia.
Qed.

Lemma retry_failing transport mac o retries :
  0 <= retries ->
  (forall k, transport k mac o = None) ->
  forall fuel w,
    retry transport fuel mac o retries w
    = StillRunning (Z.of_nat fuel)
        {| ticks := ticks w; sessions := sessions w + fuel;
           channel_calls := S (channel_calls w); fills := fills w |}.
Proof.
  intros Hr Hdead fuel w. unfold retry.
  destruct (Z.leb_spec 0 retries) as [_|Hlt]; [|lia].
  rewrite (while_True_failing _ _ _ Hdead). reflexivity.
Qed.

Lemma while_True_not_None transport mac o w' :
  forall fuel attempt w,
    while_True transport fuel mac o attempt w <> Returns None w'.
Proof.
  induction fuel as [|fuel IH]; simpl; intros attempt w; [discriminate|].
  destruct (transport (sessions w) mac o); [discriminate|]. apply IH.
Qed.

(** When the bound is negative the loop is not entered: this is the one
    way in which the primitives return [None]. *)
Lemma retry_None_iff transport fuel mac o retries w w' :
  retry transport fuel mac o retries w = Returns None w' <->
  retries < 0 /\ w' = count_call w.
Proof.
  unfold retry. destruct (Z.leb_spec 0 retries) as [Hle|Hlt].
  - split; [|lia]. intros H. exfalso.
    exact (while_True_not_None _ _ _ _ _ _ _ H).
  - split; [intros [= <-]; auto | intros [_ ->]; reflexivity].
Qed.

(** C1 (the code at the failing input).  Against a transport on which
    every session fails, and with any retry bound [retries >= 0], [read_ble]
    and [write_read_ble] have not returned after any number [fuel] of
    sessions: they have opened [fuel] sessions, [attempt] stands at [fuel],
    and the loop is still running.  In particular they are past
    [retries + 1] attempts without reporting failure. *)
Theorem retry_primitives_never_give_up :
  forall transport mac retries timeout,
    0 <= retries ->
    (forall k o, transport k mac o = None) ->
    forall (fuel : nat) handle w,
      let w' := {| ticks := ticks w; sessions := sessions w + fuel;
                   channel_calls := S (channel_calls w); fills := fills w |} in
      read_ble transport fuel mac handle retries timeout w
        = StillRunning (Z.of_nat fuel) w'
      /\ write_read_ble transport fuel mac retries timeout w
        = StillRunning (Z.of_nat fuel) w'.
Proof.
  intros transport mac retries timeout Hr Hdead fuel handle w w'.
  split; unfold read_ble, write_read_ble; apply retry_failing; auto.
Qed.

Lemma retry_primitives_never_give_up_witness :
  read_ble dead_transport 5 mac0 0x38 3 20 world0
    = StillRunning 5 {| ticks := 0; sessions := 5; channel_calls := 1; fills := 0 |}
  /\ write_read_ble dead_transport 5 mac0 3 20 world0
    = StillRunning 5 {| ticks := 0; sessions := 5; channel_calls := 1; fills := 0 |}.
Proof.
  apply (retry_primitives_never_give_up dead_transport mac0 3 20);
    [lia | reflexivity].
Defined.

(** ** Validation and decoding *)

Lemma sum_foldl_shift bs : forall a,
  foldl (fun acc b => acc + byte_val b) a bs = a + sum bs.
Proof.
  unfold sum. induction bs as [|b bs IH]; intros a; simpl; [lia|].
  rewrite IH, (IH (0 + byte_val b)). lia.
Qed.

Lemma sum_cons b bs : sum (b :: bs) = byte_val b + sum bs.
Proof. unfold sum at 1. simpl. rewrite sum_foldl_shift. lia. Qed.

Lemma byte_val_nonneg b : 0 <= byte_val b.
Proof. unfold byte_val. lia. Qed.

Lemma sum_nonneg bs : 0 <= sum bs.
Proof.
  induction bs as [|b bs IH]; [reflexivity|].
  rewrite sum_cons. pose proof (byte_val_nonneg b). lia.
Qed.

Lemma sum_all_zero bs : Forall (eq Byte.x00) bs -> sum bs = 0.
Proof.
  induction 1 as [|b bs <- _ IH]; [reflexivity|].
  rewrite sum_cons, IH. reflexivity.
Qed.

(** C2 (counterexample).  The payload passes validation under firmware
    2.6.5, but it does not decode to light 300 and conductivity 150. *)
Lemma e2e_payload_is_not_300_150 :
  ~ (checked (holding (Some payload_e2e) (Some "2.6.5")) = Some payload_e2e
     /\ decoded (holding (Some payload_e2e) (Some "2.6.5")) MI_TEMPERATURE
        = Some (VFloat 20)
     /\ decoded (holding (Some payload_e2e) (Some "2.6.5")) MI_LIGHT
        = Some (VInt 300)
     /\ decoded (holding (Some payload_e2e) (Some "2.6.5")) MI_MOISTURE
        = Some (VInt 45)
     /\ decoded (holding (Some payload_e2e) (Some "2.6.5")) MI_CONDUCTIVITY
        = Some (VInt 150)).
Proof.
  intros (_ & _ & Hlight & _). vm_compute in Hlight. discriminate Hlight.
Qed.

(** C2 (amended).  Under firmware 2.6.5 the payload
    [c8 00 00 00 2c 01 00 2d 00 96 00 00 00 00 00 00] passes validation and
    decodes to temperature 20.0, light 11264 (= 0x2c * 256 + 0x00),
    moisture 45 and conductivity 38400 (= 0x96 * 256 + 0x00); the same
    values come back from [parameter_value] on a fresh poller whose device
    answers with this payload. *)
Theorem e2e_payload_decodes :
  let p := holding (Some payload_e2e) (Some "2.6.5") in
  let ask k :=
    returned (parameter_value (frozen 0) (device v265 (fun _ => payload_e2e))
                1 k true (holding None None) world0) in
  _check_data p world0 = Ok tt p world0
  /\ decoded p MI_TEMPERATURE = Some (VFloat 20)
  /\ decoded p MI_LIGHT = Some (VInt 11264)
  /\ decoded p MI_MOISTURE = Some (VInt 45)
  /\ decoded p MI_CONDUCTIVITY = Some (VInt 38400)
  /\ ask MI_TEMPERATURE = Some (VFloat 20)
  /\ ask MI_LIGHT = Some (VInt 11264)
  /\ ask MI_MOISTURE = Some (VInt 45)
  /\ ask MI_CONDUCTIVITY = Some (VInt 38400).
Proof. repeat split; vm_compute; reflexivity. Qed.

Lemma check_data_short p w cache :
  _cache p = Some cache -> (length cache <= 7)%nat ->
  _check_data p w = Raise IndexError p w.
Proof.
  intros Hc Hlen. unfold _check_data. step. rewrite Hc. step.
  rewrite (lookup_ge_None_2 cache 7) by lia. reflexivity.
Qed.

Lemma check_data_long p w cache fw b7 :
  _cache p = Some cache -> _firmware_version p = Some fw ->
  cache !! 7%nat = Some b7 ->
  _check_data p w
  = Ok tt (if rejects fw cache (byte_val b7) then with_cache None p else p) w.
Proof.
  intros Hc Hfw H7. unfold _check_data, rejects. step.
  rewrite Hc. step. rewrite H7. step.
  destruct (byte_val b7 >? 100); [reflexivity|]. rewrite Hfw. simpl.
  destruct (str_ge fw "2.6.6"); simpl;
    destruct (sum (drop 10 cache) =? 0); simpl;
    destruct (sum cache =? 0); reflexivity.
Qed.

(** C6 (counterexample).  Sixteen zero bytes have an all-zero tail and a
    moisture byte within range, firmware 2.6.5 is below 2.6.6, and the
    payload is rejected all the same (by the rule on the total sum). *)
Lemma zero_payload_rejected_under_265 :
  ~ (forall (cache : list Byte.byte) (fw : string) (b7 : Byte.byte),
       length cache = 16%nat ->
       Forall (eq Byte.x00) (drop 10 cache) ->
       cache !! 7%nat = Some b7 -> byte_val b7 <= 100 ->
       (checked (holding (Some cache) (Some fw)) = None
        <-> str_ge fw "2.6.6" = true)).
Proof.
  intros H.
  specialize (H (replicate 16 Byte.x00) "2.6.5" Byte.x00 eq_refl).
  destruct H as [H _].
  - repeat constructor.
  - reflexivity.
  - vm_compute. discriminate.
  - specialize (H eq_refl). vm_compute in H. discriminate H.
Qed.

(** C6 (amended).  For every 16-byte payload whose bytes from index 10 on
    are all zero, whose moisture byte is at most 100 and whose bytes do not
    all sum to zero, [_check_data] never raises, and it discards the
    payload exactly when the firmware version is [>= "2.6.6"] as a string;
    otherwise it leaves the poller as it is. *)
Theorem zero_tail_rejected_iff_firmware_ge_266 :
  forall (p : MiFloraPoller) (w : world) (cache : list Byte.byte)
         (fw : string) (b7 : Byte.byte),
    _cache p = Some cache -> _firmware_version p = Some fw ->
    length cache = 16%nat ->
    Forall (eq Byte.x00) (drop 10 cache) ->
    cache !! 7%nat = Some b7 -> byte_val b7 <= 100 ->
    sum cache <> 0 ->
    returned (_check_data p w) = Some tt
    /\ (_cache (poller_of (_check_data p w)) = None
        <-> str_ge fw "2.6.6" = true)
    /\ (str_ge fw "2.6.6" = false -> _check_data p w = Ok tt p w).
Proof.
  intros p w cache fw b7 Hc Hfw _ Htail H7 Hle Hsum.
  rewrite (check_data_long p w cache fw b7 Hc Hfw H7). unfold rejects.
  rewrite (sum_all_zero _ Htail).
  destruct (Z.gtb_spec (byte_val b7) 100) as [Hgt|_]; [lia|].
  destruct (Z.eqb_spec (sum cache) 0) as [H0|_]; [contradiction|].
  destruct (str_ge fw "2.6.6"); simpl.
  - repeat split; auto; discriminate.
  - rewrite Hc. repeat split; auto; discriminate.
Qed.

Lemma zero_tail_rejected_iff_firmware_ge_266_witness :
  (checked (holding (Some payload_e2e) (Some "2.6.6")) = None
   <-> str_ge "2.6.6" "2.6.6" = true)
  /\ _check_data (holding (Some payload_e2e) (Some "2.6.5")) world0
     = Ok tt (holding (Some payload_e2e) (Some "2.6.5")) world0.
Proof.
  split.
  - apply (zero_tail_rejected_iff_firmware_ge_266
             (holding (Some payload_e2e) (Some "2.6.6")) world0
             payload_e2e "2.6.6" Byte.x2d);
      try reflexivity;
      [repeat constructor | vm_compute; discriminate | vm_compute; discriminate].
  - apply (zero_tail_rejected_iff_firmware_ge_266
             (holding (Some payload_e2e) (Some "2.6.5")) world0
             payload_e2e "2.6.5" Byte.x2d);
      try reflexivity;
      [repeat constructor | vm_compute; discriminate | vm_compute; discriminate].
Defined.

(** ** Short payloads *)

Lemma fill_cache_measured clock transport fuel p w fw p1 w1 data w2 :
  firmware_version clock transport fuel p (count_fill w) = Ok fw p1 w1 ->
  truthy fw = true ->
  write_read_ble transport fuel (_mac p1) (retries p1) (ble_timeout p1) w1
    = Returns data w2 ->
  fill_cache clock transport fuel p w
  = match _check_data (with_cache data p1) w2 with
    | Ok _ p3 w3 =>
        match _cache p3 with
        | Some _ =>
            Ok tt (with_last_read (Some (clock (ticks w3))) p3) (tick w3)
        | None => back_off clock p3 w3
        end
    | Raise e p3 w3 => Raise e p3 w3
    | OutOfFuel p3 w3 => OutOfFuel p3 w3
    end.
Proof.
  intros Hfw Ht Hm. unfold fill_cache. step. rewrite Hfw, Ht. simpl.
  rewrite Hm.
  destruct (_check_data (with_cache data p1) w2) as [[] p3 w3| |];
    try reflexivity.
  destruct (_cache p3); reflexivity.
Qed.

Lemma refresh_due_forced clock read_cached p w :
  read_cached = false \/ _last_read p = None ->
  refresh_due clock read_cached p w = Ok true p w.
Proof.
  intros Hdue. unfold refresh_due. step.
  destruct Hdue as [-> | Hl]; [reflexivity|].
  rewrite Hl. destruct read_cached; reflexivity.
Qed.

Lemma locked_refresh_forced clock transport fuel read_cached p w :
  read_cached = false \/ _last_read p = None ->
  locked_refresh clock transport fuel read_cached p w
  = fill_cache clock transport fuel p w.
Proof.
  intros Hdue. unfold locked_refresh, mbind, M_bind, bind.
  rewrite (refresh_due_forced _ _ _ _ Hdue). reflexivity.
Qed.

Lemma parameter_value_field clock transport fuel parameter read_cached p w :
  String.eqb parameter MI_BATTERY = false ->
  parameter_value clock transport fuel parameter read_cached p w
  = match locked_refresh clock transport fuel read_cached p w with
    | Ok _ p1 w1 => serve_or_fail clock transport fuel parameter p1 w1
    | Raise e p1 w1 => Raise e p1 w1
    | OutOfFuel p1 w1 => OutOfFuel p1 w1
    end.
Proof. intros Hb. unfold parameter_value. rewrite Hb. reflexivity. Qed.

(** ** The cache-fill procedure and its back-off *)

Lemma fill_cache_no_firmware clock transport fuel p w fw p1 w1 :
  firmware_version clock transport fuel p (count_fill w) = Ok fw p1 w1 ->
  truthy fw = false ->
  fill_cache clock transport fuel p w = back_off clock p1 w1.
Proof.
  intros Hfw Ht. unfold fill_cache. step. rewrite Hfw, Ht. reflexivity.
Qed.

Lemma back_off_eq clock p w :
  back_off clock p w
  = match back_off_time (clock (ticks w)) (_cache_timeout p) with
    | Some t => Ok tt (with_last_read (Some t) p) (tick w)
    | None => Raise OverflowError p (tick w)
    end.
Proof.
  unfold back_off, back_off_time, datetime_sub, datetime_add, mbind, M_bind,
    bind, now, get_self, update, ret, raise.
  cbv beta iota.
  destruct (in_datetime_range (clock (ticks w) - _cache_timeout p));
    [|reflexivity]. cbv beta iota.
  destruct (in_datetime_range
              (clock (ticks w) - _cache_timeout p + seconds 300));
    reflexivity.
Qed.

(** [_check_data] returns [None] and touches nothing but the cache. *)
Lemma check_data_Ok p w u p' w' :
  _check_data p w = Ok u p' w' ->
  w' = w /\ (p' = p \/ p' = with_cache None p).
Proof.
  unfold _check_data. step. destruct (_cache p) as [cache|] eqn:Hc.
  - destruct (cache !! 7%nat) as [b7|]; step; [|discriminate].
    destruct (byte_val b7 >? 100); [intros [= <- <- <-]; auto|].
    destruct (_firmware_version p) as [fw|]; [|discriminate].
    destruct (str_ge fw "2.6.6"); [destruct (sum (drop 10 cache) =? 0)|];
      try destruct (sum cache =? 0); intros [= <- <- <-]; auto.
  - intros [= <- <- <-]. auto.
Qed.

(** ** The two halves of [fill_cache] *)

Lemma fill_cache_unfold clock transport fuel p w :
  fill_cache clock transport fuel p w
  = (firmware_version clock transport fuel
       ≫= after_firmware clock transport fuel) p (count_fill w).
Proof. reflexivity. Qed.

(** ** How a call moves the world *)

Section Moves.

Variable R : relation world.
Hypothesis R_refl : forall w, R w w.
Hypothesis R_trans : forall a b c, R a b -> R b c -> R a c.

Lemma moves_ret {A} (a : A) : moves_by R (mret a).
Proof. intros p w. apply R_refl. Qed.

Lemma moves_raise {A} e : moves_by R (@raise A e).
Proof. intros p w. apply R_refl. Qed.

Lemma moves_get_self : moves_by R get_self.
Proof. intros p w. apply R_refl. Qed.

Lemma moves_update f : moves_by R (update f).
Proof. intros p w. apply R_refl. Qed.

Lemma moves_getitem bs i : moves_by R (getitem bs i).
Proof. intros p w. unfold getitem. destruct (bs !! i); apply R_refl. Qed.

Lemma moves_datetime_sub t d : moves_by R (datetime_sub t d).
Proof.
  intros p w. unfold datetime_sub.
  destruct (in_datetime_range (t - d)); apply R_refl.
Qed.

Lemma moves_datetime_add t d : moves_by R (datetime_add t d).
Proof.
  intros p w. unfold datetime_add.
  destruct (in_datetime_range (t + d)); apply R_refl.
Qed.

Lemma moves_bind {A B} (c : M A) (k : A -> M B) :
  moves_by R c -> (forall a, moves_by R (k a)) -> moves_by R (c ≫= k).
Proof.
  intros Hc Hk p w. specialize (Hc p w). unfold mbind, M_bind, bind.
  destruct (c p w) as [a p1 w1| |]; simpl in *; auto.
  eapply R_trans; [exact Hc | apply Hk].
Qed.

Lemma moves_check_data : moves_by R _check_data.
Proof.
  unfold _check_data. apply moves_bind; [apply moves_get_self|]. intros self.
  destruct (_cache self) as [cache|]; [|apply moves_ret].
  apply moves_bind; [apply moves_getitem|]. intros b7.
  destruct (b7 >? 100); [apply moves_update|].
  destruct (_firmware_version self) as [fw|]; [|apply moves_raise].
  destruct (str_ge fw "2.6.6"); [destruct (sum (drop 10 cache) =? 0)|];
    try destruct (sum cache =? 0);
    first [apply moves_update | apply moves_ret].
Qed.

Lemma moves_parse_data : moves_by R _parse_data.
Proof.
  unfold _parse_data. apply moves_bind; [apply moves_get_self|]. intros self.
  destruct (_cache self) as [data|]; [|apply moves_raise].
  repeat (apply moves_bind; [apply moves_getitem|]; intros ?).
  apply moves_ret.
Qed.

Hypothesis R_tick : forall w, R w (tick w).

Lemma moves_now clock : moves_by R (now clock).
Proof. intros p w. apply R_tick. Qed.

Lemma moves_back_off clock : moves_by R (back_off clock).
Proof.
  unfold back_off. apply moves_bind; [apply moves_now|]. intros t.
  apply moves_bind; [apply moves_get_self|]. intros self.
  apply moves_bind; [apply moves_datetime_sub|]. intros t1.
  apply moves_bind; [apply moves_datetime_add|]. intros t2.
  apply moves_update.
Qed.

Lemma moves_refresh_due clock read_cached :
  moves_by R (refresh_due clock read_cached).
Proof.
  unfold refresh_due. apply moves_bind; [apply moves_get_self|]. intros self.
  destruct (negb read_cached); [apply moves_ret|].
  destruct (_last_read self); [|apply moves_ret].
  apply moves_bind; [apply moves_now|]. intros t.
  apply moves_bind; [apply moves_datetime_sub|]. intros t1. apply moves_ret.
Qed.

Hypothesis R_session : forall w, R w (open_session w).
Hypothesis R_call : forall w, R w (count_call w).

Lemma moves_while_True transport mac o :
  forall fuel attempt w,
    R w (outcome_world (while_True transport fuel mac o attempt w)).
Proof.
  induction fuel as [|fuel IH]; intros attempt w; simpl; [apply R_refl|].
  destruct (transport (sessions w) mac o); simpl; [apply R_session|].
  eapply R_trans; [apply R_session | apply IH].
Qed.

Lemma moves_retry transport fuel mac o retries w :
  R w (outcome_world (retry transport fuel mac o retries w)).
Proof.
  unfold retry. destruct (0 <=? retries); simpl; [|apply R_call].
  eapply R_trans; [apply R_call | apply moves_while_True].
Qed.

Lemma moves_call {A} (c : world -> outcome A) :
  (forall w, R w (outcome_world (c w))) -> moves_by R (call c).
Proof.
  intros Hc p w. specialize (Hc w). unfold call.
  destruct (c w); simpl in *; exact Hc.
Qed.

Lemma moves_firmware_version clock transport fuel :
  moves_by R (firmware_version clock transport fuel).
Proof.
  unfold firmware_version, firmware_read_due.
  apply moves_bind.
  { apply moves_bind; [apply moves_get_self|]. intros self.
    destruct (_firmware_version self); [|apply moves_ret].
    apply moves_bind; [apply moves_now|]. intros t. apply moves_ret. }
  intros due. apply moves_bind.
  { destruct due; [|apply moves_ret].
    apply moves_bind; [apply moves_now|]. intros t.
    apply moves_bind; [apply moves_update|]. intros _.
    apply moves_bind; [apply moves_get_self|]. intros self.
    apply moves_bind.
    { apply moves_call. intros w. apply moves_retry. }
    intros [res|].
    - apply moves_bind; [apply moves_getitem|]. intros b.
      apply moves_bind; [apply moves_update|]. intros _. apply moves_update.
    - apply moves_bind; [apply moves_update|]. intros _. apply moves_update. }
  intros _. apply moves_bind; [apply moves_get_self|]. intros self.
  apply moves_ret.
Qed.

Lemma moves_after_measurement clock data :
  moves_by R (after_measurement clock data).
Proof.
  unfold after_measurement.
  apply moves_bind; [apply moves_update|]. intros _.
  apply moves_bind; [apply moves_check_data|]. intros _.
  apply moves_bind; [apply moves_get_self|]. intros self.
  destruct (_cache self); [|apply moves_back_off].
  apply moves_bind; [apply moves_now|]. intros t. apply moves_update.
Qed.

Lemma moves_after_firmware clock transport fuel fw :
  moves_by R (after_firmware clock transport fuel fw).
Proof.
  unfold after_firmware.
  destruct (negb (truthy fw)); [apply moves_back_off|].
  apply moves_bind; [apply moves_get_self|]. intros self.
  apply moves_bind; [|apply moves_after_measurement].
  apply moves_call. intros w. apply moves_retry.
Qed.

(** [fill_cache] after its call has been counted. *)
Lemma moves_fill_cache_counted clock transport fuel p w :
  R (count_fill w) (world_of (fill_cache clock transport fuel p w)).
Proof.
  rewrite fill_cache_unfold. revert p. generalize (count_fill w).
  intros w0 p. revert p w0.
  apply moves_bind; [apply moves_firmware_version|].
  apply moves_after_firmware.
Qed.

Hypothesis R_fill : forall w, R w (count_fill w).

Lemma moves_fill_cache clock transport fuel :
  moves_by R (fill_cache clock transport fuel).
Proof.
  intros p w. eapply R_trans; [apply R_fill|].
  apply moves_fill_cache_counted.
Qed.

Lemma moves_serve_or_fail clock transport fuel parameter :
  moves_by R (serve_or_fail clock transport fuel parameter).
Proof.
  unfold serve_or_fail. apply moves_bind; [apply moves_get_self|].
  intros self. destruct (cache_usable self).
  - apply moves_bind; [apply moves_parse_data|]. intros res.
    destruct (res !! parameter); [apply moves_ret | apply moves_raise].
  - apply moves_bind; [apply moves_fill_cache|]. intros _.
    apply moves_bind; [apply moves_get_self|]. intros self'.
    apply moves_raise.
Qed.

End Moves.

Lemma grows_refl w : grows w w.
Proof. unfold grows. lia. Qed.

Lemma grows_trans a b c : grows a b -> grows b c -> grows a c.
Proof. unfold grows. lia. Qed.

Lemma grows_tick w : grows w (tick w).
Proof. unfold grows. simpl. lia. Qed.

Lemma grows_session w : grows w (open_session w).
Proof. unfold grows. simpl. lia. Qed.

Lemma grows_call w : grows w (count_call w).
Proof. unfold grows. simpl. lia. Qed.

Lemma grows_fill w : grows w (count_fill w).
Proof. unfold grows. simpl. lia. Qed.

#[local] Hint Resolve grows_refl grows_trans grows_tick grows_session
  grows_call grows_fill : world.

Lemma same_refl f w : same f w w.
Proof. reflexivity. Qed.

Lemma same_trans f a b c : same f a b -> same f b c -> same f a c.
Proof. unfold same. congruence. Qed.

(** Every call of [fill_cache] is counted once, however it ends. *)
Lemma fill_cache_counts clock transport fuel p w :
  fills (world_of (fill_cache clock transport fuel p w)) = S (fills w).
Proof.
  apply (moves_fill_cache_counted (same fills) (same_refl _) (same_trans _));
    reflexivity.
Qed.

(** What comes after [c] only adds to the world [c] left. *)
Lemma bind_grows_from {A B} (c : M A) (k : A -> M B) p w :
  (forall a, moves_by grows (k a)) ->
  grows (world_of (c p w)) (world_of ((c ≫= k) p w)).
Proof.
  intros Hk. unfold mbind, M_bind, bind.
  destruct (c p w) as [a p1 w1| |]; simpl; auto with world. apply Hk.
Qed.

Lemma while_True_opens_session transport mac o fuel attempt w :
  (sessions w
   < sessions (outcome_world (while_True transport (S fuel) mac o attempt w)))%nat.
Proof.
  simpl. destruct (transport (sessions w) mac o); simpl; [lia|].
  pose proof (moves_while_True grows grows_refl grows_trans grows_session
                transport mac o fuel (attempt + 1) (open_session w)) as H.
  unfold grows in H. simpl in H. lia.
Qed.

Lemma retry_opens_session transport fuel mac o retries w :
  0 <= retries -> (0 < fuel)%nat ->
  (sessions w < sessions (outcome_world (retry transport fuel mac o retries w)))%nat.
Proof.
  intros Hr Hf. unfold retry.
  destruct (Z.leb_spec 0 retries) as [_|]; [|lia].
  destruct fuel as [|fuel]; [lia|].
  apply (while_True_opens_session transport mac o fuel 0 (count_call w)).
Qed.

(** ** The firmware query *)

Lemma firmware_version_cases clock transport fuel p w :
  firmware_version clock transport fuel p w
  = match _firmware_version p with
    | None => firmware_read clock transport fuel p w
    | Some v =>
        if clock (ticks w) - hours 24 >? _fw_last_read p
        then firmware_read clock transport fuel p (tick w)
        else Ok (Some v) p (tick w)
    end.
Proof.
  unfold firmware_version, firmware_read, firmware_read_due. step.
  destruct (_firmware_version p) as [v|] eqn:Hv; simpl; [|reflexivity].
  destruct (clock (ticks w) - hours 24 >? _fw_last_read p); simpl;
    [reflexivity|]. rewrite Hv. reflexivity.
Qed.

Lemma firmware_read_eq clock transport fuel p w :
  firmware_read clock transport fuel p w
  = let p1 := with_fw_last_read (clock (ticks w)) p in
    match read_ble transport fuel (_mac p) 0x38 (retries p) 20 (tick w) with
    | Returns None w' =>
        Ok None (with_firmware_version None (with_battery (Some 0) p1)) w'
    | Returns (Some res) w' =>
        match res !! 0%nat with
        | Some b =>
            Ok (Some (chr_join (drop 2 res)))
               (with_firmware_version (Some (chr_join (drop 2 res)))
                  (with_battery (Some (byte_val b)) p1)) w'
        | None => Raise IndexError p1 w'
        end
    | StillRunning _ w' => OutOfFuel p1 w'
    end.
Proof.
  unfold firmware_read. step.
  destruct (read_ble transport fuel (_mac p) 56 (retries p) 20 (tick w))
    as [[res|] w'|a w']; simpl; try reflexivity.
  destruct (res !! 0%nat); reflexivity.
Qed.

(** Once the read is due, the time of the check is stamped and the
    primitive is called once, however the read ends. *)
Lemma firmware_read_stamps clock transport fuel p w :
  _fw_last_read (poller_of (firmware_read clock transport fuel p w))
    = clock (ticks w)
  /\ channel_calls (world_of (firmware_read clock transport fuel p w))
    = S (channel_calls w).
Proof.
  rewrite firmware_read_eq. simpl.
  unfold read_ble.
  assert (Hc : channel_calls
                 (outcome_world (retry transport fuel (_mac p) (CharRead 56)
                                   (retries p) (tick w)))
               = S (channel_calls w)).
  { unfold retry. destruct (0 <=? retries p); simpl; [|reflexivity].
    apply (moves_while_True (same channel_calls) (same_refl _) (same_trans _)
             ltac:(reflexivity)). }
  destruct (retry transport fuel (_mac p) (CharRead 56) (retries p) (tick w))
    as [[res|] w'|a w']; simpl in *; auto.
  destruct (res !! 0%nat); simpl; auto.
Qed.

(** The value returned is the one left in the poller. *)
Lemma firmware_version_returns_field clock transport fuel p w v p1 w1 :
  firmware_version clock transport fuel p w = Ok v p1 w1 ->
  _firmware_version p1 = v.
Proof.
  rewrite firmware_version_cases.
  assert (Hread : forall w0, firmware_read clock transport fuel p w0
                             = Ok v p1 w1 -> _firmware_version p1 = v).
  { intros w0. rewrite firmware_read_eq. simpl.
    destruct (read_ble transport fuel (_mac p) 56 (retries p) 20 (tick w0))
      as [[res|] w'|a w']; simpl; try discriminate.
    - destruct (res !! 0%nat); [|discriminate].
      intros [= <- <- <-]. reflexivity.
    - intros [= <- <- <-]. reflexivity. }
  destruct (_firmware_version p) as [v0|] eqn:Hv; [|apply Hread].
  destruct (clock (ticks w) - hours 24 >? _fw_last_read p); [apply Hread|].
  intros [= <- <- <-]. exact Hv.
Qed.

Lemma world_of_call {A} (c : world -> outcome A) p w :
  world_of (call c p w) = outcome_world (c w).
Proof. unfold call. destruct (c w); reflexivity. Qed.

Lemma firmware_read_world clock transport fuel p w :
  world_of (firmware_read clock transport fuel p w)
  = outcome_world
      (read_ble transport fuel (_mac p) 0x38 (retries p) 20 (tick w)).
Proof.
  rewrite firmware_read_eq. simpl.
  destruct (read_ble transport fuel (_mac p) 56 (retries p) 20 (tick w))
    as [[res|] w'|a w']; simpl; try reflexivity.
  destruct (res !! 0%nat); reflexivity.
Qed.

Lemma after_firmware_truthy clock transport fuel fw p w :
  truthy fw = true ->
  after_firmware clock transport fuel fw p w
  = (call (write_read_ble transport fuel (_mac p) (retries p) (ble_timeout p))
       ≫= after_measurement clock) p w.
Proof. intros H. unfold after_firmware. rewrite H. reflexivity. Qed.

(** With a usable firmware version in the poller, a retry bound [>= 0] and
    room for one round, [fill_cache] opens at least one session: for the
    firmware when its check is older than 24 hours, for the measurement
    otherwise. *)
Lemma fill_cache_opens_session clock transport fuel p w :
  truthy (_firmware_version p) = true -> 0 <= retries p -> (0 < fuel)%nat ->
  (sessions w < sessions (world_of (fill_cache clock transport fuel p w)))%nat.
Proof.
  intros Ht Hr Hf. rewrite fill_cache_unfold.
  set (w0 := count_fill w).
  assert (Hw0 : sessions w0 = sessions w) by reflexivity. rewrite <- Hw0.
  clearbody w0. clear Hw0.
  destruct (_firmware_version p) as [v|] eqn:Hv; [|discriminate].
  pose proof (firmware_version_cases clock transport fuel p w0) as Hc.
  rewrite Hv in Hc.
  destruct (clock (ticks w0) - hours 24 >? _fw_last_read p).
  - pose proof (bind_grows_from (firmware_version clock transport fuel)
                  (after_firmware clock transport fuel) p w0
                  (moves_after_firmware grows grows_refl grows_trans
                     grows_tick grows_session grows_call
                     clock transport fuel)) as Hg.
    rewrite Hc, firmware_read_world in Hg.
    pose proof (retry_opens_session transport fuel (_mac p) (CharRead 56)
                  (retries p) (tick (tick w0)) Hr Hf) as Hs.
    unfold read_ble in Hg. unfold grows in Hg.
    simpl in Hs. lia.
  - unfold mbind at 1, M_bind at 1, bind at 1. rewrite Hc.
    rewrite (after_firmware_truthy _ _ _ _ _ _ Ht).
    pose proof (bind_grows_from
                  (call (write_read_ble transport fuel (_mac p) (retries p)
                           (ble_timeout p)))
                  (after_measurement clock) p (tick w0)
                  (moves_after_measurement grows grows_refl grows_trans
                     grows_tick clock)) as Hg.
    rewrite world_of_call in Hg. unfold write_read_ble in Hg.
    pose proof (retry_opens_session transport fuel (_mac p)
                  (WriteThenRead 51 [Byte.xa0; Byte.x1f] 53)
                  (retries p) (tick w0) Hr Hf) as Hs.
    unfold grows in Hg. simpl in Hs. unfold write_read_ble. lia.
Qed.

Lemma firmware_version_raises clock transport fuel p w e p' w' :
  firmware_version clock transport fuel p w = Raise e p' w' ->
  e = IndexError.
Proof.
  rewrite firmware_version_cases.
  assert (Hread : forall w0, firmware_read clock transport fuel p w0
                             = Raise e p' w' -> e = IndexError).
  { intros w0. rewrite firmware_read_eq. simpl.
    destruct (read_ble transport fuel (_mac p) 56 (retries p) 20 (tick w0))
      as [[res|] w1|a w1]; try discriminate.
    destruct (res !! 0%nat); [discriminate|]. intros [= <- _ _]. reflexivity. }
  destruct (_firmware_version p); [|apply Hread].
  destruct (clock (ticks w) - hours 24 >? _fw_last_read p);
    [apply Hread | discriminate].
Qed.

(** ** The refresh under the lock *)

Lemma refresh_due_eq clock read_cached p w :
  refresh_due clock read_cached p w
  = if negb read_cached then Ok true p w
    else match _last_read p with
         | None => Ok true p w
         | Some last_read =>
             match cache_expired (clock (ticks w)) (_cache_timeout p)
                     last_read with
             | Some b => Ok b p (tick w)
             | None => Raise OverflowError p (tick w)
             end
         end.
Proof.
  unfold refresh_due, cache_expired, datetime_sub, mbind, M_bind, bind, now,
    get_self, ret, raise, mret, M_ret.
  cbv beta iota. destruct (negb read_cached); [reflexivity|].
  destruct (_last_read p) as [l|]; [|reflexivity]. cbv beta iota.
  destruct (in_datetime_range (clock (ticks w) - _cache_timeout p));
    reflexivity.
Qed.

Lemma locked_refresh_eq clock transport fuel read_cached p w :
  locked_refresh clock transport fuel read_cached p w
  = if negb read_cached then fill_cache clock transport fuel p w
    else match _last_read p with
         | None => fill_cache clock transport fuel p w
         | Some last_read =>
             match cache_expired (clock (ticks w)) (_cache_timeout p)
                     last_read with
             | Some true => fill_cache clock transport fuel p (tick w)
             | Some false => Ok tt p (tick w)
             | None => Raise OverflowError p (tick w)
             end
         end.
Proof.
  unfold locked_refresh, mbind, M_bind, bind. rewrite refresh_due_eq.
  destruct (negb read_cached); [reflexivity|].
  destruct (_last_read p) as [l|]; [|reflexivity].
  destruct (cache_expired (clock (ticks w)) (_cache_timeout p) l) as [[|]|];
    reflexivity.
Qed.

Lemma parse_data_world p w : world_of (_parse_data p w) = w.
Proof.
  symmetry.
  apply (moves_parse_data eq (@eq_refl _) (fun a b c => @eq_trans _ a b c)).
Qed.

(** With a usable cache, what follows the lock touches nothing. *)
Lemma serve_from_cache clock transport fuel parameter p w :
  cache_usable p = true ->
  world_of (serve_or_fail clock transport fuel parameter p w) = w.
Proof.
  intros Hu. unfold serve_or_fail. step. rewrite Hu.
  pose proof (parse_data_world p w) as Hw.
  destruct (_parse_data p w) as [res p1 w1| |]; simpl in *; auto.
  destruct (res !! parameter); simpl; auto.
Qed.




(** ** The firmware check and its 24 hours *)


Lemma battery_level_world clock transport fuel p w :
  world_of (battery_level clock transport fuel p w)
  = world_of (firmware_version clock transport fuel p w).
Proof.
  unfold battery_level. step.
  destruct (firmware_version clock transport fuel p w) as [v p1 w1| |];
    simpl; try reflexivity.
  destruct (battery p1); reflexivity.
Qed.

Lemma firmware_read_sessions clock transport fuel p w :
  0 <= retries p -> (0 < fuel)%nat ->
  (sessions w < sessions (world_of (firmware_read clock transport fuel p w)))%nat.
Proof.
  intros Hr Hf. rewrite firmware_read_world.
  apply (retry_opens_session transport fuel (_mac p) (CharRead 56)
           (retries p) (tick w) Hr Hf).
Qed.

Lemma firmware_read_fails clock transport fuel p w :
  (forall e p1 w1,
     firmware_read clock transport fuel p w = Raise e p1 w1 ->
     _firmware_version p1 = _firmware_version p)
  /\ (forall p1 w1,
        firmware_read clock transport fuel p w = Ok None p1 w1 ->
        _firmware_version p1 = None).
Proof.
  rewrite firmware_read_eq. simpl.
  destruct (read_ble transport fuel (_mac p) 56 (retries p) 20 (tick w))
    as [[res|] w'|a w']; simpl.
  - destruct (res !! 0%nat); split; intros; try discriminate.
    injection H as _ <- _. reflexivity.
  - split; intros; try discriminate. injection H as <- _. reflexivity.
  - split; intros; discriminate.
Qed.



(** ** Faults the caller sees *)

Lemma name_eq transport fuel p w :
  name transport fuel p w
  = match read_ble transport fuel (_mac p) 0x03 (retries p) (ble_timeout p) w
    with
    | Returns (Some bs) w' => Ok (chr_join bs) p w'
    | Returns None w' => Raise TypeError p w'
    | StillRunning _ w' => OutOfFuel p w'
    end.
Proof.
  unfold name. step.
  destruct (read_ble transport fuel (_mac p) 3 (retries p) (ble_timeout p) w)
    as [[bs|] w'|a w']; reflexivity.
Qed.

(** C7 (the code at the failing input).  When the retried read of the name
    characteristic returns [None], [name] raises [TypeError]: it iterates
    over the result without the test for [None] that [firmware_version]
    makes.  With a retry bound [>= 0] and a transport on which every
    session fails, the read never returns, and neither does [name]. *)
Theorem name_fails_on_failed_read :
  forall transport (fuel : nat) (p : MiFloraPoller) (w : world),
    (forall w',
       read_ble transport fuel (_mac p) 0x03 (retries p) (ble_timeout p) w
         = Returns None w' ->
       name transport fuel p w = Raise TypeError p w')
    /\ (0 <= retries p -> (forall k o, transport k (_mac p) o = None) ->
        returned (name transport fuel p w) = None
        /\ raised (name transport fuel p w) = None).
Proof.
  intros transport fuel p w. split.
  - intros w' Hr. rewrite name_eq, Hr. reflexivity.
  - intros Hr Hdead. rewrite name_eq. unfold read_ble.
    rewrite (retry_failing _ _ _ _ Hr (fun k => Hdead k _)). auto.
Qed.

Lemma name_fails_on_failed_read_witness :
  name dead_transport 1 (with_retries (-1) (holding None None)) world0
  = Raise TypeError (with_retries (-1) (holding None None))
      (count_call world0).
Proof.
  destruct (name_fails_on_failed_read dead_transport 1
              (with_retries (-1) (holding None None)) world0) as [H _].
  apply H. reflexivity.
Defined.

Lemma serve_or_fail_without_cache clock transport fuel parameter p w :
  cache_usable p = false ->
  serve_or_fail clock transport fuel parameter p w
  = match fill_cache clock transport fuel p w with
    | Ok _ p1 w1 =>
        Raise (IOError "Could not read data from Mi Flora sensor %s" (_mac p1))
          p1 w1
    | Raise e p1 w1 => Raise e p1 w1
    | OutOfFuel p1 w1 => OutOfFuel p1 w1
    end.
Proof.
  intros Hu. unfold serve_or_fail. step. rewrite Hu.
  destruct (fill_cache clock transport fuel p w); reflexivity.
Qed.

(** C3 (the code at the failing input).  On a fresh poller whose device
    first measures sixteen zero bytes and then a single byte, the refresh
    under the lock returns with an empty cache, the one further
    [fill_cache] is made, and the call raises [IndexError], not the
    [IOError]: when the cache is unusable after the lock, the [IOError] is
    raised only if that further [fill_cache] returns, and whatever it
    raises reaches the caller instead. *)
Theorem IOError_preempted_by_IndexError :
  let dev := device v265 fading in
  let fresh := holding None None in
  let locked := locked_refresh (frozen 0) dev 1 true fresh world0 in
  let r := parameter_value (frozen 0) dev 1 MI_MOISTURE true fresh world0 in
  (returned locked = Some tt /\ _cache (poller_of locked) = None
   /\ fills (world_of locked) = 1%nat)
  /\ (raised r = Some IndexError /\ fills (world_of r) = 2%nat)
  /\ (forall clock transport fuel parameter p w,
        cache_usable p = false ->
        serve_or_fail clock transport fuel parameter p w
        = match fill_cache clock transport fuel p w with
          | Ok _ p1 w1 =>
              Raise (IOError "Could not read data from Mi Flora sensor %s"
                       (_mac p1)) p1 w1
          | Raise e p1 w1 => Raise e p1 w1
          | OutOfFuel p1 w1 => OutOfFuel p1 w1
          end).
Proof.
  split; [|split].
  - repeat split; vm_compute; reflexivity.
  - repeat split; vm_compute; reflexivity.
  - intros. apply serve_or_fail_without_cache. assumption.
Qed.

(** C9 (the code at the failing input).  On a fresh poller whose device
    measures a single byte, [parameter_value] raises [IndexError] out of
    [_check_data]; the poller it leaves behind holds that byte as its
    cache although the payload did not pass [_check_data] (running the
    check on it raises again), and [_last_read] is still unset. *)
Theorem unvalidated_payload_stays_cached :
  let dev := device v265 (fun _ => [Byte.x01]) in
  let r := parameter_value (frozen 0) dev 1 MI_MOISTURE true
             (holding None None) world0 in
  raised r = Some IndexError
  /\ _cache (poller_of r) = Some [Byte.x01]
  /\ _last_read (poller_of r) = None
  /\ raised (_check_data (poller_of r) (world_of r)) = Some IndexError.
Proof. repeat split; vm_compute; reflexivity. Qed.

(** C10.  A measurement of 1 to 7 bytes makes [_check_data] raise
    [IndexError] at [self._cache[7]] instead of discarding the payload.
    When the firmware version is available and the measurement read
    returns such a payload, [fill_cache] raises [IndexError].  So does
    [parameter_value] for a field other than the battery, whichever of its
    two fills gets the payload: the one under the lock, whatever made the
    refresh due ([read_cached] false, no read before, or an expired
    cache), and the one after the lock, which is made when the lock leaves
    a cache that is not a 16-byte payload.  The caller sees an exception
    that is not the [IOError]. *)
Theorem short_payload_raises_IndexError :
  forall clock transport (fuel : nat) (cache : list Byte.byte),
    (1 <= length cache <= 7)%nat ->
    (forall p' w', _cache p' = Some cache ->
                   _check_data p' w' = Raise IndexError p' w')
    /\ (forall p w fw p1 w1 w2,
          firmware_version clock transport fuel p (count_fill w)
            = Ok fw p1 w1 ->
          truthy fw = true ->
          write_read_ble transport fuel (_mac p1) (retries p1)
            (ble_timeout p1) w1 = Returns (Some cache) w2 ->
          fill_cache clock transport fuel p w
          = Raise IndexError (with_cache (Some cache) p1) w2)
    /\ (forall parameter read_cached p w w0 fw p1 w1 w2,
          String.eqb parameter MI_BATTERY = false ->
          refresh_due clock read_cached p w = Ok true p w0 ->
          firmware_version clock transport fuel p (count_fill w0)
            = Ok fw p1 w1 ->
          truthy fw = true ->
          write_read_ble transport fuel (_mac p1) (retries p1)
            (ble_timeout p1) w1 = Returns (Some cache) w2 ->
          parameter_value clock transport fuel parameter read_cached p w
          = Raise IndexError (with_cache (Some cache) p1) w2)
    /\ (forall parameter read_cached p w u pl wl fw p1 w1 w2,
          String.eqb parameter MI_BATTERY = false ->
          locked_refresh clock transport fuel read_cached p w = Ok u pl wl ->
          cache_usable pl = false ->
          firmware_version clock transport fuel pl (count_fill wl)
            = Ok fw p1 w1 ->
          truthy fw = true ->
          write_read_ble transport fuel (_mac p1) (retries p1)
            (ble_timeout p1) w1 = Returns (Some cache) w2 ->
          parameter_value clock transport fuel parameter read_cached p w
          = Raise IndexError (with_cache (Some cache) p1) w2).
Proof.
  intros clock transport fuel cache Hlen.
  assert (Hchk : forall p' w', _cache p' = Some cache ->
                               _check_data p' w' = Raise IndexError p' w').
  { intros p' w' Hc. apply (check_data_short p' w' cache Hc). lia. }
  assert (Hfill : forall p w fw p1 w1 w2,
            firmware_version clock transport fuel p (count_fill w)
              = Ok fw p1 w1 ->
            truthy fw = true ->
            write_read_ble transport fuel (_mac p1) (retries p1)
              (ble_timeout p1) w1 = Returns (Some cache) w2 ->
            fill_cache clock transport fuel p w
            = Raise IndexError (with_cache (Some cache) p1) w2).
  { intros p w fw p1 w1 w2 Hfw Ht Hm.
    rewrite (fill_cache_measured _ _ _ _ _ _ _ _ _ _ Hfw Ht Hm).
    rewrite Hchk; reflexivity. }
  split; [exact Hchk|]. split; [exact Hfill|]. split.
  - intros parameter read_cached p w w0 fw p1 w1 w2 Hb Hdue Hfw Ht Hm.
    rewrite (parameter_value_field _ _ _ _ _ _ _ Hb).
    unfold locked_refresh, mbind, M_bind, bind. rewrite Hdue.
    rewrite (Hfill p w0 fw p1 w1 w2 Hfw Ht Hm). reflexivity.
  - intros parameter read_cached p w u pl wl fw p1 w1 w2 Hb Hlock Hu Hfw Ht Hm.
    rewrite (parameter_value_field _ _ _ _ _ _ _ Hb), Hlock.
    rewrite (serve_or_fail_without_cache _ _ _ _ _ _ Hu).
    rewrite (Hfill pl wl fw p1 w1 w2 Hfw Ht Hm). reflexivity.
Qed.

(** The payload reaches a fresh poller, a poller whose cache has expired,
    and the fill after the lock. *)
Lemma short_payload_raises_IndexError_witness :
  let short := device v265 (fun _ => [Byte.x01]) in
  let expired := with_last_read (Some 0)
                   (holding (Some payload_e2e) (Some "2.6.5")) in
  raised (parameter_value (frozen 0) short 1 MI_MOISTURE true
            (holding None None) world0) = Some IndexError
  /\ raised (parameter_value (frozen (seconds 601)) short 1 MI_MOISTURE true
               expired world0) = Some IndexError
  /\ raised (parameter_value (frozen 0) (device v265 fading) 1 MI_MOISTURE
               true (holding None None) world0) = Some IndexError.
Proof.
  intros short expired.
  destruct (short_payload_raises_IndexError (frozen 0) short 1 [Byte.x01]
              ltac:(simpl; lia)) as (_ & _ & Hfresh & _).
  destruct (short_payload_raises_IndexError (frozen (seconds 601)) short 1
              [Byte.x01] ltac:(simpl; lia)) as (_ & _ & Hexpired & _).
  destruct (short_payload_raises_IndexError (frozen 0) (device v265 fading) 1
              [Byte.x01] ltac:(simpl; lia)) as (_ & _ & _ & Hafter).
  split; [|split].
  - erewrite Hfresh; reflexivity.
  - erewrite Hexpired; reflexivity.
  - erewrite Hafter; reflexivity.
Defined.

(** ** What a returning [fill_cache] leaves *)

Lemma firmware_version_keeps_cache clock transport fuel p w :
  _cache (poller_of (firmware_version clock transport fuel p w)) = _cache p
  /\ _last_read (poller_of (firmware_version clock transport fuel p w))
     = _last_read p.
Proof.
  rewrite firmware_version_cases.
  assert (Hread : forall w0,
            _cache (poller_of (firmware_read clock transport fuel p w0))
              = _cache p
            /\ _last_read (poller_of (firmware_read clock transport fuel p w0))
               = _last_read p).
  { intros w0. rewrite firmware_read_eq. simpl.
    destruct (read_ble transport fuel (_mac p) 56 (retries p) 20 (tick w0))
      as [[res|] w'|a w']; simpl; auto.
    destruct (res !! 0%nat); simpl; auto. }
  destruct (_firmware_version p); [|apply Hread].
  destruct (clock (ticks w) - hours 24 >? _fw_last_read p);
    [apply Hread | auto].
Qed.

(** When [fill_cache] returns, [_last_read] is set, and the cache is the
    one it found (no firmware version, no measurement read), or empty, or a
    payload that [_check_data] let through. *)
Lemma fill_cache_returns clock transport fuel p w u p' w' :
  fill_cache clock transport fuel p w = Ok u p' w' ->
  _last_read p' <> None
  /\ (_cache p' = _cache p
      \/ _cache p' = None
      \/ exists p3 w3,
           _check_data p3 w3 = Ok tt p3 w3
           /\ _cache p3 = _cache p'
           /\ _firmware_version p3 = _firmware_version p').
Proof.
  intros H.
  destruct (firmware_version clock transport fuel p (count_fill w))
    as [fw p1 w1| |] eqn:Hfw;
    try (rewrite fill_cache_unfold in H; unfold mbind, M_bind, bind in H;
         rewrite Hfw in H; discriminate H).
  destruct (truthy fw) eqn:Ht.
  - destruct (write_read_ble transport fuel (_mac p1) (retries p1)
                (ble_timeout p1) w1) as [data w2|a w2] eqn:Hm.
    + rewrite (fill_cache_measured _ _ _ _ _ _ _ _ _ _ Hfw Ht Hm) in H.
      destruct (_check_data (with_cache data p1) w2) as [[] p3 w3| |] eqn:Hchk;
        try discriminate H.
      destruct (check_data_Ok _ _ _ _ _ Hchk) as [-> [-> | ->]].
      * destruct data as [d|]; simpl in H.
        -- injection H as <- <-. split; [discriminate|].
           right. right. exists (with_cache (Some d) p1), w2. auto.
        -- rewrite back_off_eq in H.
           destruct (back_off_time _ _); [|discriminate H].
           injection H as <- <-. split; [discriminate | auto].
      * simpl in H. rewrite back_off_eq in H.
        destruct (back_off_time _ _); [|discriminate H].
        injection H as <- <-. split; [discriminate | auto].
    + rewrite fill_cache_unfold in H. unfold mbind at 1, M_bind at 1, bind at 1 in H.
      rewrite Hfw, (after_firmware_truthy _ _ _ _ _ _ Ht) in H.
      unfold mbind, M_bind, bind, call in H. rewrite Hm in H. discriminate H.
  - rewrite (fill_cache_no_firmware _ _ _ _ _ _ _ _ Hfw Ht), back_off_eq in H.
    destruct (back_off_time _ _); [|discriminate H].
    injection H as <- <-. split; [discriminate|]. left. simpl.
    pose proof (firmware_version_keeps_cache clock transport fuel p
                  (count_fill w)) as [Hc _].
    rewrite Hfw in Hc. exact Hc.
Qed.

(** ** More on the retry primitives *)

Lemma while_True_first_success transport mac o data :
  forall n fuel attempt w,
    (n < fuel)%nat ->
    (forall k, (k < n)%nat -> transport (sessions w + k)%nat mac o = None) ->
    transport (sessions w + n)%nat mac o = Some data ->
    while_True transport fuel mac o attempt w
    = Returns (Some data)
        {| ticks := ticks w; sessions := sessions w + S n;
           channel_calls := channel_calls w; fills := fills w |}.
Proof.
  induction n as [|n IH]; intros fuel attempt w Hf Hfail Hok;
    (destruct fuel as [|fuel]; [lia|]); simpl.
  - rewrite Nat.add_0_r in Hok. rewrite Hok. unfold open_session.
    do 2 f_equal. lia.
  - pose proof (Hfail 0%nat ltac:(lia)) as H0. rewrite Nat.add_0_r in H0.
    rewrite H0. rewrite (IH fuel (attempt + 1) (open_session w)).
    + simpl. do 2 f_equal. lia.
    + lia.
    + intros k Hk. simpl. rewrite <- (Hfail (S k)) by lia. f_equal. lia.
    + simpl. rewrite <- Hok. f_equal. lia.
Qed.

(** The primitives retry until a session succeeds, however many failed
    before it, also when that is more than [retries + 1]: if the first [n]
    sessions fail and the next one succeeds, then, for a retry bound
    [>= 0] and room for [n + 1] rounds, [read_ble] and [write_read_ble]
    return the data of that session and [write_ble] returns [True], after
    exactly [n + 1] sessions. *)
Theorem first_success_is_returned :
  forall transport mac (n fuel : nat) (data : list Byte.byte)
         (retries timeout handle : Z) (value : list Byte.byte) (w : world),
    0 <= retries -> (n < fuel)%nat ->
    (forall k o, (k < n)%nat -> transport (sessions w + k)%nat mac o = None) ->
    (forall o, transport (sessions w + n)%nat mac o = Some data) ->
    let w' := {| ticks := ticks w; sessions := sessions w + S n;
                 channel_calls := S (channel_calls w); fills := fills w |} in
    read_ble transport fuel mac handle retries timeout w
      = Returns (Some data) w'
    /\ write_read_ble transport fuel mac retries timeout w
       = Returns (Some data) w'
    /\ write_ble transport fuel mac handle value retries timeout w
       = Returns true w'.
Proof.
  intros transport mac n fuel data retries timeout handle value w
    Hr Hf Hfail Hok w'.
  assert (H : forall o, retry transport fuel mac o retries w
                        = Returns (Some data) w').
  { intros o. unfold retry.
    destruct (Z.leb_spec 0 retries) as [_|]; [|lia].
    apply (while_True_first_success transport mac o data n fuel 0
             (count_call w) Hf); simpl; auto. }
  unfold read_ble, write_read_ble, write_ble. rewrite !H. auto.
Qed.

(** A transport whose first [n] sessions fail and whose later ones answer
    with [data]. *)
Lemma first_success_is_returned_witness :
  let late k (mac : string) (o : op) :=
    if (k <? 5)%nat then None else Some [Byte.x2a] in
  read_ble late 6 mac0 0x38 3 20 world0
  = Returns (Some [Byte.x2a])
      {| ticks := 0; sessions := 6; channel_calls := 1; fills := 0 |}.
Proof.
  intros late.
  destruct (first_success_is_returned late mac0 5 6 [Byte.x2a] 3 20 0x38 []
              world0) as (H & _ & _).
  - lia.
  - lia.
  - intros k o Hk. simpl. unfold late.
    destruct (Nat.ltb_spec k 5); [reflexivity | lia].
  - reflexivity.
  - exact H.
Defined.

(** The primitives give up ([None], for [write_ble]: [False]) exactly
    when the retry bound is negative, and then without opening a session:
    the call is counted and nothing else happens. *)
Theorem primitives_give_up_iff_negative_bound :
  forall transport (fuel : nat) mac (handle retries timeout : Z)
         (value : list Byte.byte) (w w' : world),
    (read_ble transport fuel mac handle retries timeout w = Returns None w'
     <-> retries < 0 /\ w' = count_call w)
    /\ (write_read_ble transport fuel mac retries timeout w = Returns None w'
        <-> retries < 0 /\ w' = count_call w)
    /\ (write_ble transport fuel mac handle value retries timeout w
          = Returns false w'
        <-> retries < 0 /\ w' = count_call w).
Proof.
  intros transport fuel mac handle retries timeout value w w'.
  split; [|split]; try apply retry_None_iff.
  unfold write_ble.
  rewrite <- (retry_None_iff transport fuel mac (CharWrite handle value)
                retries w w').
  destruct (retry transport fuel mac (CharWrite handle value) retries w)
    as [[d|] w1|a w1]; split; intros H; try discriminate H.
  - injection H as <-. reflexivity.
  - injection H as <-. reflexivity.
Qed.

(** ** More on validation and decoding *)

Lemma byte_val_bound b : 0 <= byte_val b <= 255.
Proof.
  unfold byte_val. pose proof (Byte.to_N_bounded b). lia.
Qed.

(** A payload that [_check_data] lets through is left in place together
    with everything else; it has a byte 7 of at most 100, its bytes do not
    all sum to zero, and under a firmware version [>= "2.6.6"] neither do
    its bytes from index 10 on. *)
Theorem check_data_survivor :
  forall (p : MiFloraPoller) (w : world) u p' w' (c : list Byte.byte),
    _check_data p w = Ok u p' w' -> _cache p' = Some c ->
    p' = p /\ w' = w
    /\ exists b7,
         c !! 7%nat = Some b7 /\ byte_val b7 <= 100 /\ 0 < sum c
         /\ (forall fw, _firmware_version p = Some fw ->
                        str_ge fw "2.6.6" = true -> 0 < sum (drop 10 c)).
Proof.
  intros p w u p' w' c H Hc.
  destruct (check_data_Ok _ _ _ _ _ H) as [-> [-> | ->]]; [|discriminate Hc].
  split; [reflexivity|]. split; [reflexivity|].
  destruct (c !! 7%nat) as [b7|] eqn:H7.
  - exists b7. split; [reflexivity|].
    destruct (_firmware_version p) as [fw|] eqn:Hfw.
    + rewrite (check_data_long p w c fw b7 Hc Hfw H7) in H.
      destruct (rejects fw c (byte_val b7)) eqn:Hrej.
      { apply (f_equal poller_of) in H. simpl in H.
        rewrite <- H in Hc. discriminate Hc. }
      unfold rejects in Hrej.
      apply orb_false_elim in Hrej as [Hrej H3].
      apply orb_false_elim in Hrej as [H1 H2].
      pose proof (sum_nonneg c). pose proof (sum_nonneg (drop 10 c)).
      destruct (Z.gtb_spec (byte_val b7) 100); [discriminate|].
      destruct (Z.eqb_spec (sum c) 0); [discriminate|].
      repeat split; try lia.
      intros fw' [= <-] Hge. rewrite Hge in H2. simpl in H2.
      destruct (Z.eqb_spec (sum (drop 10 c)) 0); [discriminate | lia].
    + exfalso. revert H. unfold _check_data. step. rewrite Hc. step.
      rewrite H7. step. destruct (byte_val b7 >? 100).
      * intros H. apply (f_equal poller_of) in H. simpl in H.
        rewrite <- H in Hc. discriminate Hc.
      * rewrite Hfw. discriminate.
  - exfalso. rewrite (check_data_short p w c Hc) in H; [discriminate|].
    apply lookup_ge_None_1 in H7. lia.
Qed.

Lemma check_data_survivor_witness :
  exists b7, payload_e2e !! 7%nat = Some b7 /\ byte_val b7 <= 100.
Proof.
  destruct (check_data_survivor (holding (Some payload_e2e) (Some "2.6.5"))
              world0 tt (holding (Some payload_e2e) (Some "2.6.5")) world0
              payload_e2e eq_refl eq_refl) as (_ & _ & b7 & H7 & Hle & _).
  exists b7. auto.
Defined.

Lemma all_from_spec f : forall k n,
  all_from f k n = true ->
  forall z, n <= z < n + Z.of_nat k -> f z = true.
Proof.
  induction k as [|k IH]; intros n H z Hz; [lia|].
  simpl in H. apply andb_true_iff in H as [Hn Hrest].
  destruct (Z.eq_dec z n) as [->|Hne]; [exact Hn|].
  apply (IH (n + 1) Hrest). lia.
Qed.

Lemma temperature_ok_all n : 0 <= n <= 65535 -> temperature_ok n = true.
Proof.
  intros Hn.
  apply (all_from_spec temperature_ok (Z.to_nat 65536) 0);
    [vm_compute; reflexivity | lia].
Qed.

Lemma parse_data_eq p w data d0 d1 d3 d4 d7 d8 d9 :
  _cache p = Some data ->
  data !! 0%nat = Some d0 -> data !! 1%nat = Some d1 ->
  data !! 3%nat = Some d3 -> data !! 4%nat = Some d4 ->
  data !! 7%nat = Some d7 ->
  data !! 8%nat = Some d8 -> data !! 9%nat = Some d9 ->
  _parse_data p w
  = Ok (<[MI_CONDUCTIVITY := VInt (byte_val d9 * 256 + byte_val d8)]>
          (<[MI_LIGHT := VInt (byte_val d4 * 256 + byte_val d3)]>
             (<[MI_MOISTURE := VInt (byte_val d7)]>
                (<[MI_TEMPERATURE :=
                     VFloat (PrimFloat.div
                               (float_of_int (byte_val d1 * 256 + byte_val d0))
                               (float_of_int 10))]> ∅)))) p w.
Proof.
  intros Hc H0 H1 H3 H4 H7 H8 H9. unfold _parse_data. step.
  rewrite Hc. step. rewrite H1. step. rewrite H0. step. rewrite H7. step.
  rewrite H4. step. rewrite H3. step. rewrite H9. step. rewrite H8.
  reflexivity.
Qed.

Lemma parse_data_short p w data :
  _cache p = Some data -> (length data < 10)%nat ->
  _parse_data p w = Raise IndexError p w.
Proof.
  intros Hc Hlen. unfold _parse_data. step. rewrite Hc. step.
  destruct (data !! 1%nat) as [d1|] eqn:H1; step; [|reflexivity].
  destruct (data !! 0%nat) as [d0|] eqn:H0; step; [|reflexivity].
  destruct (data !! 7%nat) as [d7|] eqn:H7; step; [|reflexivity].
  destruct (data !! 4%nat) as [d4|] eqn:H4; step; [|reflexivity].
  destruct (data !! 3%nat) as [d3|] eqn:H3; step; [|reflexivity].
  destruct (data !! 9%nat) as [d9|] eqn:H9; step; [|reflexivity].
  apply lookup_lt_Some in H9. lia.
Qed.

(** [_parse_data] needs ten bytes: on a shorter cache it raises
    [IndexError].  On a cache of ten bytes or more it returns, touching
    nothing, a dictionary with exactly the four keys temperature, moisture,
    light and conductivity (no battery): the temperature is a float between
    0.0 and 6553.5, never negative, and ten times it is the raw 16-bit
    value [data[1] * 256 + data[0]] again; moisture is one byte, 0 to 255; light and conductivity are
    16-bit, 0 to 65535. *)
Theorem parse_data_ranges :
  forall (p : MiFloraPoller) (w : world) (data : list Byte.byte),
    _cache p = Some data ->
    ((length data < 10)%nat -> _parse_data p w = Raise IndexError p w)
    /\ ((10 <= length data)%nat ->
        exists res t m l c,
          _parse_data p w = Ok res p w
          /\ res !! MI_TEMPERATURE = Some (VFloat t)
          /\ PrimFloat.leb 0%float t = true
          /\ PrimFloat.leb t 6553.5%float = true
          /\ (exists d0 d1,
                 data !! 0%nat = Some d0 /\ data !! 1%nat = Some d1
                 /\ PrimFloat.eqb (PrimFloat.mul t (float_of_int 10))
                      (float_of_int (byte_val d1 * 256 + byte_val d0))
                    = true)
          /\ res !! MI_MOISTURE = Some (VInt m) /\ 0 <= m <= 255
          /\ res !! MI_LIGHT = Some (VInt l) /\ 0 <= l <= 65535
          /\ res !! MI_CONDUCTIVITY = Some (VInt c) /\ 0 <= c <= 65535
          /\ (forall k, k <> MI_TEMPERATURE -> k <> MI_MOISTURE ->
                        k <> MI_LIGHT -> k <> MI_CONDUCTIVITY ->
                        res !! k = None)).
Proof.
  intros p w data Hc. split; [apply parse_data_short; exact Hc|].
  intros Hlen.
  assert (Hget : forall i, (i < 10)%nat -> exists b, data !! i = Some b).
  { intros i Hi. apply lookup_lt_is_Some_2. lia. }
  destruct (Hget 0%nat ltac:(lia)) as [d0 H0].
  destruct (Hget 1%nat ltac:(lia)) as [d1 H1].
  destruct (Hget 3%nat ltac:(lia)) as [d3 H3].
  destruct (Hget 4%nat ltac:(lia)) as [d4 H4].
  destruct (Hget 7%nat ltac:(lia)) as [d7 H7].
  destruct (Hget 8%nat ltac:(lia)) as [d8 H8].
  destruct (Hget 9%nat ltac:(lia)) as [d9 H9].
  pose proof (byte_val_bound d0). pose proof (byte_val_bound d1).
  pose proof (byte_val_bound d3). pose proof (byte_val_bound d4).
  pose proof (byte_val_bound d7). pose proof (byte_val_bound d8).
  pose proof (byte_val_bound d9).
  assert (Hraw : 0 <= byte_val d1 * 256 + byte_val d0 <= 65535) by lia.
  pose proof (temperature_ok_all _ Hraw) as Hok. unfold temperature_ok in Hok.
  apply andb_true_iff in Hok as [Hok Hback].
  apply andb_true_iff in Hok as [Hlo Hhi].
  eexists _, _, _, _, _.
  split; [apply (parse_data_eq p w data d0 d1 d3 d4 d7 d8 d9); assumption|].
  unfold MI_TEMPERATURE, MI_MOISTURE, MI_LIGHT, MI_CONDUCTIVITY.
  split; [by simplify_map_eq|]. split; [exact Hlo|]. split; [exact Hhi|].
  split; [exists d0, d1; auto|].
  split; [by simplify_map_eq|]. split; [lia|].
  split; [by simplify_map_eq|]. split; [lia|].
  split; [by simplify_map_eq|]. split; [lia|].
  intros k Ht Hm Hl Hcd. by simplify_map_eq.
Qed.

Lemma parse_data_ranges_witness :
  exists res, _parse_data (holding (Some payload_e2e) None) world0
              = Ok res (holding (Some payload_e2e) None) world0
              /\ res !! MI_BATTERY = None.
Proof.
  destruct (parse_data_ranges (holding (Some payload_e2e) None) world0
              payload_e2e eq_refl) as [_ H].
  destruct H as (res & t & m & l & c & Hres & _ & _ & _ & _ & _ & _ & _ & _
                 & _ & _ & Hno).
  - simpl. lia.
  - exists res. split; [exact Hres|]. apply Hno; discriminate.
Defined.

(** [_parse_data] reads the bytes 0, 1, 3, 4, 7, 8 and 9 and no others:
    two caches that agree there decode alike, whatever their other bytes
    and their lengths. *)
Theorem parse_data_reads_seven_bytes :
  forall (p : MiFloraPoller) (w : world) (data data' : list Byte.byte),
    (forall i, i ∈ parsed_indices -> data !! i = data' !! i) ->
    returned (_parse_data (with_cache (Some data) p) w)
    = returned (_parse_data (with_cache (Some data') p) w)
    /\ raised (_parse_data (with_cache (Some data) p) w)
       = raised (_parse_data (with_cache (Some data') p) w).
Proof.
  intros p w data data' Hsame.
  assert (H : forall i, i ∈ parsed_indices -> data !! i = data' !! i)
    by exact Hsame.
  unfold _parse_data. step.
  rewrite <- (H 1%nat), <- (H 0%nat), <- (H 7%nat), <- (H 4%nat),
    <- (H 3%nat), <- (H 9%nat), <- (H 8%nat)
    by (unfold parsed_indices; set_solver).
  destruct (data !! 1%nat); step; [|auto].
  destruct (data !! 0%nat); step; [|auto].
  destruct (data !! 7%nat); step; [|auto].
  destruct (data !! 4%nat); step; [|auto].
  destruct (data !! 3%nat); step; [|auto].
  destruct (data !! 9%nat); step; [|auto].
  destruct (data !! 8%nat); step; auto.
Qed.

Lemma parse_data_reads_seven_bytes_witness :
  returned (_parse_data (with_cache (Some payload_e2e) (holding None None))
              world0)
  = returned (_parse_data
                (with_cache (Some (take 10 payload_e2e)) (holding None None))
                world0).
Proof.
  apply (parse_data_reads_seven_bytes (holding None None) world0
           payload_e2e (take 10 payload_e2e)).
  intros i Hi. unfold parsed_indices in Hi.
  repeat (apply elem_of_cons in Hi as [-> | Hi]; [reflexivity|]).
  apply elem_of_nil in Hi. destruct Hi.
Defined.

(** ** What the methods keep *)

Section Frame.

Variable P : MiFloraPoller -> Prop.

Lemma preserves_ret {A} (a : A) : preserves P (mret a).
Proof. intros p w H. exact H. Qed.

Lemma preserves_raise {A} e : preserves P (@raise A e).
Proof. intros p w H. exact H. Qed.

Lemma preserves_get_self : preserves P get_self.
Proof. intros p w H. exact H. Qed.

Lemma preserves_getitem bs i : preserves P (getitem bs i).
Proof. intros p w H. unfold getitem. destruct (bs !! i); exact H. Qed.

Lemma preserves_now clock : preserves P (now clock).
Proof. intros p w H. exact H. Qed.

Lemma preserves_observe f : preserves P (observe f).
Proof. intros p w H. exact H. Qed.

Lemma preserves_call {A} (c : world -> outcome A) : preserves P (call c).
Proof. intros p w H. unfold call. destruct (c w); exact H. Qed.

Lemma preserves_update f :
  (forall p, P p -> P (f p)) -> preserves P (update f).
Proof. intros Hf p w H. apply Hf, H. Qed.

Lemma preserves_datetime_sub t d : preserves P (datetime_sub t d).
Proof.
  intros p w H. unfold datetime_sub.
  destruct (in_datetime_range (t - d)); exact H.
Qed.

Lemma preserves_datetime_add t d : preserves P (datetime_add t d).
Proof.
  intros p w H. unfold datetime_add.
  destruct (in_datetime_range (t + d)); exact H.
Qed.

Lemma preserves_bind {A B} (c : M A) (k : A -> M B) :
  preserves P c -> (forall a, preserves P (k a)) -> preserves P (c ≫= k).
Proof.
  intros Hc Hk p w H. specialize (Hc p w H). unfold mbind, M_bind, bind.
  destruct (c p w) as [a p1 w1| |]; simpl in *; auto. apply Hk, Hc.
Qed.

Lemma preserves_parse_data : preserves P _parse_data.
Proof.
  unfold _parse_data. apply preserves_bind; [apply preserves_get_self|].
  intros self. destruct (_cache self); [|apply preserves_raise].
  repeat (apply preserves_bind; [apply preserves_getitem|]; intros ?).
  apply preserves_ret.
Qed.

Lemma preserves_name transport fuel : preserves P (name transport fuel).
Proof.
  unfold name. apply preserves_bind; [apply preserves_get_self|]. intros self.
  apply preserves_bind; [apply preserves_call|].
  intros [bs|]; [apply preserves_ret | apply preserves_raise].
Qed.

Hypothesis keeps_last_read : forall t p, P p -> P (with_last_read t p).

Lemma preserves_back_off clock : preserves P (back_off clock).
Proof.
  unfold back_off. apply preserves_bind; [apply preserves_now|]. intros t.
  apply preserves_bind; [apply preserves_get_self|]. intros self.
  apply preserves_bind; [apply preserves_datetime_sub|]. intros t1.
  apply preserves_bind; [apply preserves_datetime_add|]. intros t2.
  apply preserves_update. auto.
Qed.

Lemma preserves_refresh_due clock read_cached :
  preserves P (refresh_due clock read_cached).
Proof.
  unfold refresh_due. apply preserves_bind; [apply preserves_get_self|].
  intros self. destruct (negb read_cached); [apply preserves_ret|].
  destruct (_last_read self); [|apply preserves_ret].
  apply preserves_bind; [apply preserves_now|]. intros t.
  apply preserves_bind; [apply preserves_datetime_sub|]. intros t1.
  apply preserves_ret.
Qed.

(** Around a [fill_cache] that keeps [P], so do the lock and what follows
    it. *)
Lemma preserves_locked_refresh clock transport fuel read_cached :
  preserves P (fill_cache clock transport fuel) ->
  preserves P (locked_refresh clock transport fuel read_cached).
Proof.
  intros Hfill. unfold locked_refresh.
  apply preserves_bind; [apply preserves_refresh_due|].
  intros [|]; [exact Hfill | apply preserves_ret].
Qed.

Lemma preserves_serve_or_fail clock transport fuel parameter :
  preserves P (fill_cache clock transport fuel) ->
  preserves P (serve_or_fail clock transport fuel parameter).
Proof.
  intros Hfill. unfold serve_or_fail.
  apply preserves_bind; [apply preserves_get_self|]. intros self.
  destruct (cache_usable self).
  - apply preserves_bind; [apply preserves_parse_data|]. intros res.
    destruct (res !! parameter); [apply preserves_ret | apply preserves_raise].
  - apply preserves_bind; [exact Hfill|]. intros _.
    apply preserves_bind; [apply preserves_get_self|]. intros self'.
    apply preserves_raise.
Qed.

Lemma preserves_battery_level clock transport fuel :
  preserves P (firmware_version clock transport fuel) ->
  preserves P (battery_level clock transport fuel).
Proof.
  intros Hfw. unfold battery_level. apply preserves_bind; [exact Hfw|].
  intros _. apply preserves_bind; [apply preserves_get_self|]. intros self.
  destruct (battery self); [apply preserves_ret | apply preserves_raise].
Qed.

Lemma preserves_parameter_value clock transport fuel parameter read_cached :
  preserves P (firmware_version clock transport fuel) ->
  preserves P (fill_cache clock transport fuel) ->
  preserves P (parameter_value clock transport fuel parameter read_cached).
Proof.
  intros Hfw Hfill. unfold parameter_value.
  destruct (String.eqb parameter MI_BATTERY).
  - apply preserves_bind; [apply preserves_battery_level, Hfw|].
    intros b. apply preserves_ret.
  - apply preserves_bind; [apply preserves_locked_refresh, Hfill|].
    intros _. apply preserves_serve_or_fail, Hfill.
Qed.

Lemma preserves_invoke clock transport fuel q :
  preserves P (firmware_version clock transport fuel) ->
  preserves P (fill_cache clock transport fuel) ->
  preserves P (invoke clock transport fuel q).
Proof.
  intros Hfw Hfill p w H.
  assert (Hforget : forall A (r : result A),
            poller_of (forget r) = poller_of r) by (intros A []; reflexivity).
  unfold invoke. destruct q; rewrite Hforget.
  - apply preserves_name, H.
  - apply Hfw, H.
  - apply preserves_battery_level; assumption.
  - apply preserves_parameter_value; assumption.
  - apply Hfill, H.
Qed.

(** A property that no assignment of the class disturbs is kept by the
    firmware query and by the cache fill. *)
Hypothesis keeps_cache : forall c p, P p -> P (with_cache c p).
Hypothesis keeps_fw_last_read : forall t p, P p -> P (with_fw_last_read t p).
Hypothesis keeps_battery : forall b p, P p -> P (with_battery b p).
Hypothesis keeps_firmware_version :
  forall v p, P p -> P (with_firmware_version v p).

Lemma frame_check_data : preserves P _check_data.
Proof.
  intros p w H. destruct (_check_data p w) as [u p' w'| |] eqn:Hc.
  - destruct (check_data_Ok _ _ _ _ _ Hc) as [_ [-> | ->]]; simpl; auto.
  - revert Hc. unfold _check_data. step.
    destruct (_cache p) as [cache|]; [|discriminate].
    destruct (cache !! 7%nat) as [b7|]; step;
      [|intros [= <- <- <-]; exact H].
    destruct (byte_val b7 >? 100); [discriminate|].
    destruct (_firmware_version p) as [fw|];
      [|intros [= <- <- <-]; exact H].
    destruct (str_ge fw "2.6.6"); [destruct (sum (drop 10 cache) =? 0)|];
      try destruct (sum cache =? 0); discriminate.
  - revert Hc. unfold _check_data. step.
    destruct (_cache p) as [cache|]; [|discriminate].
    destruct (cache !! 7%nat) as [b7|]; step; [|discriminate].
    destruct (byte_val b7 >? 100); [discriminate|].
    destruct (_firmware_version p) as [fw|]; [|discriminate].
    destruct (str_ge fw "2.6.6"); [destruct (sum (drop 10 cache) =? 0)|];
      try destruct (sum cache =? 0); discriminate.
Qed.

Lemma frame_firmware_version clock transport fuel :
  preserves P (firmware_version clock transport fuel).
Proof.
  unfold firmware_version, firmware_read_due.
  apply preserves_bind.
  { apply preserves_bind; [apply preserves_get_self|]. intros self.
    destruct (_firmware_version self); [|apply preserves_ret].
    apply preserves_bind; [apply preserves_now|]. intros t.
    apply preserves_ret. }
  intros due. apply preserves_bind.
  { destruct due; [|apply preserves_ret].
    apply preserves_bind; [apply preserves_now|]. intros t.
    apply preserves_bind; [apply preserves_update; auto|]. intros _.
    apply preserves_bind; [apply preserves_get_self|]. intros self.
    apply preserves_bind; [apply preserves_call|].
    intros [res|].
    - apply preserves_bind; [apply preserves_getitem|]. intros b.
      apply preserves_bind; [apply preserves_update; auto|]. intros _.
      apply preserves_update; auto.
    - apply preserves_bind; [apply preserves_update; auto|]. intros _.
      apply preserves_update; auto. }
  intros _. apply preserves_bind; [apply preserves_get_self|]. intros self.
  apply preserves_ret.
Qed.

Lemma frame_fill_cache clock transport fuel :
  preserves P (fill_cache clock transport fuel).
Proof.
  intros p w. rewrite fill_cache_unfold. revert p. generalize (count_fill w).
  intros w0 p. revert p w0.
  apply preserves_bind; [apply frame_firmware_version|]. intros fw.
  unfold after_firmware.
  destruct (negb (truthy fw)); [apply preserves_back_off|].
  apply preserves_bind; [apply preserves_get_self|]. intros self.
  apply preserves_bind; [apply preserves_call|]. intros data.
  unfold after_measurement.
  apply preserves_bind; [apply preserves_update; auto|]. intros _.
  apply preserves_bind; [apply frame_check_data|]. intros _.
  apply preserves_bind; [apply preserves_get_self|]. intros self'.
  destruct (_cache self'); [|apply preserves_back_off].
  apply preserves_bind; [apply preserves_now|]. intros t.
  apply preserves_update; auto.
Qed.

End Frame.

(** ** [fill_cache], case by case *)

Lemma fill_cache_cases clock transport fuel p w :
  fill_cache clock transport fuel p w
  = match firmware_version clock transport fuel p (count_fill w) with
    | Ok fw p1 w1 =>
        if truthy fw then
          match write_read_ble transport fuel (_mac p1) (retries p1)
                  (ble_timeout p1) w1 with
          | Returns data w2 => after_measurement clock data p1 w2
          | StillRunning _ w2 => OutOfFuel p1 w2
          end
        else back_off clock p1 w1
    | Raise e p1 w1 => Raise e p1 w1
    | OutOfFuel p1 w1 => OutOfFuel p1 w1
    end.
Proof.
  rewrite fill_cache_unfold. unfold mbind at 1, M_bind at 1, bind at 1.
  destruct (firmware_version clock transport fuel p (count_fill w))
    as [fw p1 w1| |]; try reflexivity.
  destruct (truthy fw) eqn:Ht.
  - rewrite (after_firmware_truthy _ _ _ _ _ _ Ht).
    unfold mbind, M_bind, bind, call.
    destruct (write_read_ble transport fuel (_mac p1) (retries p1)
                (ble_timeout p1) w1); reflexivity.
  - unfold after_firmware. rewrite Ht. reflexivity.
Qed.

Lemma after_measurement_cases clock data p w fw :
  _firmware_version p = Some fw ->
  after_measurement clock data p w
  = let failed := back_off clock (with_cache None p) w in
    match data with
    | None => failed
    | Some c =>
        match c !! 7%nat with
        | None => Raise IndexError (with_cache (Some c) p) w
        | Some b7 =>
            if rejects fw c (byte_val b7) then failed
            else Ok tt (with_last_read (Some (clock (ticks w)))
                          (with_cache (Some c) p)) (tick w)
        end
    end.
Proof.
  intros Hfw. unfold after_measurement.
  unfold mbind at 1, M_bind at 1, bind at 1, update at 1.
  unfold mbind at 1, M_bind at 1, bind at 1.
  destruct data as [c|].
  - destruct (c !! 7%nat) as [b7|] eqn:H7.
    + rewrite (check_data_long (with_cache (Some c) p) w c fw b7
                 eq_refl Hfw H7).
      destruct (rejects fw c (byte_val b7)); reflexivity.
    + rewrite (check_data_short (with_cache (Some c) p) w c eq_refl);
        [reflexivity|]. apply lookup_ge_None_1 in H7. lia.
  - reflexivity.
Qed.

Lemma truthy_Some fw : truthy fw = true -> exists v, fw = Some v.
Proof. destruct fw as [v|]; [eauto | discriminate]. Qed.

Lemma back_off_raises clock p w e p' w' :
  back_off clock p w = Raise e p' w' -> e = OverflowError.
Proof.
  rewrite back_off_eq. destruct (back_off_time _ _); [discriminate|].
  intros [= <- _ _]. reflexivity.
Qed.

Lemma fill_cache_raises clock transport fuel p w e p' w' :
  fill_cache clock transport fuel p w = Raise e p' w' ->
  e = IndexError \/ e = OverflowError.
Proof.
  rewrite fill_cache_cases.
  destruct (firmware_version clock transport fuel p (count_fill w))
    as [fw p1 w1|e1 p1 w1|] eqn:Hfw; [| |discriminate].
  - destruct (truthy fw) eqn:Ht;
      [|intros H; right; apply (back_off_raises _ _ _ _ _ _ H)].
    destruct (write_read_ble transport fuel (_mac p1) (retries p1)
                (ble_timeout p1) w1) as [data w2|]; [|discriminate].
    destruct (truthy_Some _ Ht) as [v ->].
    rewrite (after_measurement_cases clock data p1 w2 v
               (firmware_version_returns_field _ _ _ _ _ _ _ _ Hfw)).
    cbv zeta. destruct data as [c|];
      [|intros H; right; apply (back_off_raises _ _ _ _ _ _ H)].
    destruct (c !! 7%nat); [|intros [= <- _ _]; left; reflexivity].
    destruct (rejects v c _); [|discriminate].
    intros H; right; apply (back_off_raises _ _ _ _ _ _ H).
  - intros [= <- _ _]. left.
    apply (firmware_version_raises _ _ _ _ _ _ _ _ Hfw).
Qed.

(** C5 (the code at the failing input).  A fill fails without any
    back-off being recorded.  On a device that does not answer, with a
    retry bound [>= 0], [fill_cache] does not come back, whatever the
    fuel: after [fuel] rounds it has opened [fuel] sessions and
    [_last_read] is what it was (the one exception is a stored empty
    version not older than 24 hours, for which nothing is read).  And when
    the measurement read returns a payload of at most seven bytes,
    [fill_cache] raises [IndexError] and [_last_read] is what it was. *)
Theorem fill_cache_fails_without_back_off :
  forall clock transport (fuel : nat) (p : MiFloraPoller) (w : world),
    let r := fill_cache clock transport fuel p w in
    (_firmware_version p <> Some ""%string -> 0 <= retries p ->
     (forall k o, transport k (_mac p) o = None) ->
     finished r = false
     /\ _last_read (poller_of r) = _last_read p
     /\ sessions (world_of r) = (sessions w + fuel)%nat)
    /\ (forall fw p1 w1 cache w2,
          firmware_version clock transport fuel p (count_fill w)
            = Ok fw p1 w1 ->
          truthy fw = true ->
          write_read_ble transport fuel (_mac p1) (retries p1)
            (ble_timeout p1) w1 = Returns (Some cache) w2 ->
          (length cache <= 7)%nat ->
          raised r = Some IndexError
          /\ _last_read (poller_of r) = _last_read p).
Proof.
  intros clock transport fuel p w r. subst r. split.
  - intros Hv Hr Hdead. rewrite fill_cache_cases, firmware_version_cases.
    assert (Hread : forall w0,
              sessions w0 = sessions w ->
              let r := firmware_read clock transport fuel p w0 in
              r = OutOfFuel (poller_of r) (world_of r)
              /\ _last_read (poller_of r) = _last_read p
              /\ sessions (world_of r) = (sessions w + fuel)%nat).
    { intros w0 Hw0. cbv zeta. rewrite firmware_read_eq. cbv zeta.
      unfold read_ble.
      rewrite (retry_failing transport (_mac p) (CharRead 56) (retries p)
                 Hr (fun k => Hdead k _) fuel (tick w0)).
      simpl. rewrite Hw0. auto. }
    destruct (_firmware_version p) as [v|] eqn:Hfw.
    + destruct (clock (ticks (count_fill w)) - hours 24 >? _fw_last_read p).
      * destruct (Hread (tick (count_fill w)) eq_refl) as (Hout & Hl & Hs).
        rewrite Hout. simpl. auto.
      * assert (Ht : truthy (Some v) = true).
        { destruct v; [contradiction|reflexivity]. }
        rewrite Ht. unfold write_read_ble.
        rewrite (retry_failing transport (_mac p)
                   (WriteThenRead 51 [Byte.xa0; Byte.x1f] 53) (retries p)
                   Hr (fun k => Hdead k _) fuel (tick (count_fill w))).
        simpl. auto.
    + destruct (Hread (count_fill w) eq_refl) as (Hout & Hl & Hs).
      rewrite Hout. simpl. auto.
  - intros fw p1 w1 cache w2 Hfw Ht Hm Hlen.
    rewrite (fill_cache_measured _ _ _ _ _ _ _ _ _ _ Hfw Ht Hm).
    rewrite (check_data_short (with_cache (Some cache) p1) w2 cache eq_refl
               Hlen).
    simpl. split; [reflexivity|].
    destruct (firmware_version_keeps_cache clock transport fuel p
                (count_fill w)) as [_ Hl].
    rewrite Hfw in Hl. exact Hl.
Qed.

Lemma fill_cache_fails_without_back_off_witness :
  let r := fill_cache (frozen 0) dead_transport 7 (holding None None)
             world0 in
  finished r = false /\ _last_read (poller_of r) = None
  /\ sessions (world_of r) = 7%nat.
Proof.
  intros r.
  destruct (fill_cache_fails_without_back_off (frozen 0) dead_transport 7
              (holding None None) world0) as [H _].
  apply H; [discriminate | vm_compute; discriminate | reflexivity].
Defined.

(** ** The faults a caller can see *)

Lemma cache_usable_length p :
  cache_usable p = true ->
  exists data, _cache p = Some data /\ length data = 16%nat.
Proof.
  unfold cache_usable. destruct (_cache p) as [[|b data]|];
    try discriminate.
  intros H. exists (b :: data). split; [reflexivity|].
  apply Z.eqb_eq in H. lia.
Qed.

Lemma parse_data_usable p w :
  cache_usable p = true ->
  exists data d0 d1 d3 d4 d7 d8 d9,
    _cache p = Some data /\ data !! 7%nat = Some d7
    /\ _parse_data p w
       = Ok (<[MI_CONDUCTIVITY := VInt (byte_val d9 * 256 + byte_val d8)]>
               (<[MI_LIGHT := VInt (byte_val d4 * 256 + byte_val d3)]>
                  (<[MI_MOISTURE := VInt (byte_val d7)]>
                     (<[MI_TEMPERATURE :=
                          VFloat (PrimFloat.div
                                    (float_of_int
                                       (byte_val d1 * 256 + byte_val d0))
                                    (float_of_int 10))]> ∅)))) p w.
Proof.
  intros Hu. destruct (cache_usable_length p Hu) as (data & Hc & Hlen).
  assert (Hget : forall i, (i < 10)%nat -> exists b, data !! i = Some b).
  { intros i Hi. apply lookup_lt_is_Some_2. lia. }
  destruct (Hget 0%nat ltac:(lia)) as [d0 H0].
  destruct (Hget 1%nat ltac:(lia)) as [d1 H1].
  destruct (Hget 3%nat ltac:(lia)) as [d3 H3].
  destruct (Hget 4%nat ltac:(lia)) as [d4 H4].
  destruct (Hget 7%nat ltac:(lia)) as [d7 H7].
  destruct (Hget 8%nat ltac:(lia)) as [d8 H8].
  destruct (Hget 9%nat ltac:(lia)) as [d9 H9].
  exists data, d0, d1, d3, d4, d7, d8, d9.
  split; [exact Hc|]. split; [exact H7|].
  apply (parse_data_eq p w data d0 d1 d3 d4 d7 d8 d9); assumption.
Qed.

Lemma mac_kept_by_fill_cache clock transport fuel p w :
  _mac (poller_of (fill_cache clock transport fuel p w)) = _mac p.
Proof.
  apply (frame_fill_cache (fun q => _mac q = _mac p)); auto.
Qed.

Lemma locked_refresh_raises clock transport fuel read_cached p w e p' w' :
  locked_refresh clock transport fuel read_cached p w = Raise e p' w' ->
  e = IndexError \/ e = OverflowError.
Proof.
  rewrite locked_refresh_eq.
  destruct (negb read_cached); [apply fill_cache_raises|].
  destruct (_last_read p) as [l|]; [|apply fill_cache_raises].
  destruct (cache_expired _ _ _) as [[|]|];
    [apply fill_cache_raises | discriminate |].
  intros [= <- _ _]. right. reflexivity.
Qed.

Lemma mac_kept_by_locked_refresh clock transport fuel read_cached p w :
  _mac (poller_of (locked_refresh clock transport fuel read_cached p w))
  = _mac p.
Proof.
  apply (preserves_locked_refresh (fun q => _mac q = _mac p)); auto.
  intros q w0 Hq. rewrite mac_kept_by_fill_cache. exact Hq.
Qed.

(** All that [parameter_value] raises for a field other than the battery:
    [IndexError] (out of [fill_cache]), [OverflowError] (out of the
    arithmetic on the cache timeout), [KeyError] with the name asked for
    (only for a name that is none of the four fields, and only with a
    16-byte cache in place), and the [IOError] with its fixed message and
    the address the poller was built with.  It raises no [TypeError] and no
    [AttributeError]. *)
Theorem faults_of_parameter_value :
  forall clock transport (fuel : nat) (parameter : string)
         (read_cached : bool) (p : MiFloraPoller) (w : world) e p' w',
    String.eqb parameter MI_BATTERY = false ->
    parameter_value clock transport fuel parameter read_cached p w
      = Raise e p' w' ->
    e = IndexError \/ e = OverflowError
    \/ (e = KeyError parameter /\ cache_usable p' = true
        /\ parameter <> MI_TEMPERATURE /\ parameter <> MI_MOISTURE
        /\ parameter <> MI_LIGHT /\ parameter <> MI_CONDUCTIVITY)
    \/ e = IOError "Could not read data from Mi Flora sensor %s" (_mac p).
Proof.
  intros clock transport fuel parameter read_cached p w e p' w' Hb H.
  rewrite (parameter_value_field _ _ _ _ _ _ _ Hb) in H.
  pose proof (mac_kept_by_locked_refresh clock transport fuel read_cached p w)
    as Hmac.
  destruct (locked_refresh clock transport fuel read_cached p w)
    as [u p1 w1|e1 p1 w1|] eqn:Hlock; [| |discriminate].
  - simpl in Hmac. destruct (cache_usable p1) eqn:Hu.
    + right. right. left.
      destruct (parse_data_usable p1 w1 Hu)
        as (data & d0 & d1 & d3 & d4 & d7 & d8 & d9 & Hc & H7 & Hparse).
      revert H. unfold serve_or_fail. step. rewrite Hu, Hparse.
      destruct (_ !! parameter) as [v|] eqn:Hlook; [discriminate|].
      intros [= <- <- <-]. split; [reflexivity|]. split; [exact Hu|].
      unfold MI_TEMPERATURE, MI_MOISTURE, MI_LIGHT, MI_CONDUCTIVITY in *.
      repeat split; intros ->; by simplify_map_eq.
    + rewrite (serve_or_fail_without_cache _ _ _ _ _ _ Hu) in H.
      pose proof (mac_kept_by_fill_cache clock transport fuel p1 w1) as Hmac2.
      destruct (fill_cache clock transport fuel p1 w1)
        as [u2 p2 w2|e2 p2 w2|] eqn:Hfill; [| |discriminate].
      * right. right. right. injection H as <- <- <-. simpl in Hmac2.
        rewrite Hmac2, Hmac. reflexivity.
      * injection H as <- <- <-.
        destruct (fill_cache_raises _ _ _ _ _ _ _ _ Hfill); auto.
  - injection H as <- <- <-.
    destruct (locked_refresh_raises _ _ _ _ _ _ _ _ _ Hlock); auto.
Qed.

Lemma faults_of_parameter_value_witness :
  let p := with_last_read (Some 0)
             (holding (Some payload_e2e) (Some "2.6.5")) in
  exists e p' w',
    parameter_value (frozen 0) dead_transport 1 "humidity" true p world0
      = Raise e p' w'
    /\ (e = IndexError \/ e = OverflowError
        \/ (e = KeyError "humidity" /\ cache_usable p' = true
            /\ "humidity"%string <> MI_TEMPERATURE
            /\ "humidity"%string <> MI_MOISTURE
            /\ "humidity"%string <> MI_LIGHT
            /\ "humidity"%string <> MI_CONDUCTIVITY)
        \/ e = IOError "Could not read data from Mi Flora sensor %s"
                 (_mac p)).
Proof.
  intros p. eexists _, _, _. split; [reflexivity|].
  eapply (faults_of_parameter_value (frozen 0) dead_transport 1 "humidity"
            true p world0); reflexivity.
Defined.

Lemma firmware_version_battery clock transport fuel p w v p1 w1 :
  battery_known p ->
  firmware_version clock transport fuel p w = Ok v p1 w1 ->
  exists b, battery p1 = Some b /\ 0 <= b <= 255.
Proof.
  intros Hk. rewrite firmware_version_cases.
  assert (Hread : forall w0, firmware_read clock transport fuel p w0
                             = Ok v p1 w1 ->
                             exists b, battery p1 = Some b /\ 0 <= b <= 255).
  { intros w0. rewrite firmware_read_eq. simpl.
    destruct (read_ble transport fuel (_mac p) 56 (retries p) 20 (tick w0))
      as [[res|] w'|a w']; try discriminate.
    - destruct (res !! 0%nat) as [b|]; [|discriminate].
      intros [= <- <- <-]. exists (byte_val b). split; [reflexivity|].
      apply byte_val_bound.
    - intros [= <- <- <-]. exists 0. split; [reflexivity | lia]. }
  destruct (_firmware_version p) as [v0|] eqn:Hv; [|apply Hread].
  destruct (clock (ticks w) - hours 24 >? _fw_last_read p); [apply Hread|].
  intros [= <- <- <-]. apply Hk. rewrite Hv. discriminate.
Qed.

(** What the other methods raise.  [name] raises only [TypeError], only
    under a negative retry bound, and changes nothing.  [firmware_version]
    raises only [IndexError].  [fill_cache] raises only [IndexError] or,
    out of the arithmetic on the cache timeout in its back-off,
    [OverflowError].  [battery_level] raises [IndexError], or
    [AttributeError] for the attribute [battery], the latter only on a
    poller that has a firmware version but no battery level. *)
Theorem faults_of_the_other_methods :
  forall clock transport (fuel : nat) (p : MiFloraPoller) (w : world)
         e p' w',
    (name transport fuel p w = Raise e p' w' ->
     e = TypeError /\ retries p < 0 /\ p' = p)
    /\ (firmware_version clock transport fuel p w = Raise e p' w' ->
        e = IndexError)
    /\ (fill_cache clock transport fuel p w = Raise e p' w' ->
        e = IndexError \/ e = OverflowError)
    /\ (battery_level clock transport fuel p w = Raise e p' w' ->
        e = IndexError
        \/ (e = AttributeError "battery" /\ ~ battery_known p)).
Proof.
  intros clock transport fuel p w e p' w'. repeat split.
  - revert H. rewrite name_eq.
    destruct (read_ble _ _ _ _ _ _ _) as [[bs|] w1|]; try discriminate.
    intros [= <- _ _]. reflexivity.
  - revert H. rewrite name_eq.
    destruct (read_ble transport fuel (_mac p) 3 (retries p) (ble_timeout p) w)
      as [[bs|] w1|] eqn:Hr; try discriminate.
    intros _. apply retry_None_iff in Hr. tauto.
  - revert H. rewrite name_eq.
    destruct (read_ble _ _ _ _ _ _ _) as [[bs|] w1|]; try discriminate.
    intros [= _ <- _]. reflexivity.
  - apply firmware_version_raises.
  - apply fill_cache_raises.
  - unfold battery_level. step.
    destruct (firmware_version clock transport fuel p w)
      as [v p1 w1|e1 p1 w1|] eqn:Hfw; [| |discriminate].
    + destruct (battery p1) as [b|] eqn:Hb; [discriminate|].
      intros [= <- <- <-]. right. split; [reflexivity|].
      intros Hk.
      destruct (firmware_version_battery _ _ _ _ _ _ _ _ Hk Hfw)
        as (b & Hb' & _). congruence.
    + intros [= <- <- <-]. left.
      apply (firmware_version_raises _ _ _ _ _ _ _ _ Hfw).
Qed.

Lemma faults_of_the_other_methods_witness :
  retries (with_retries (-1) (holding None None)) < 0.
Proof.
  destruct (faults_of_the_other_methods (frozen 0) dead_transport 1
              (with_retries (-1) (holding None None)) world0 TypeError
              (with_retries (-1) (holding None None)) (count_call world0))
    as (H & _).
  destruct (H eq_refl) as (_ & Hneg & _). exact Hneg.
Defined.

(** ** Invariants of a poller in use *)

Lemma known_firmware_version clock transport fuel :
  preserves battery_known (firmware_version clock transport fuel).
Proof.
  intros p w Hk. rewrite firmware_version_cases.
  assert (Hread : forall w0,
            battery_known (poller_of (firmware_read clock transport fuel p w0))).
  { intros w0. rewrite firmware_read_eq. simpl.
    destruct (read_ble transport fuel (_mac p) 56 (retries p) 20 (tick w0))
      as [[res|] w'|a w']; simpl; try exact Hk.
    - destruct (res !! 0%nat) as [b|]; simpl; [|exact Hk].
      intros _. exists (byte_val b). split; [reflexivity|].
      apply byte_val_bound.
    - intros Hne. exfalso. apply Hne. reflexivity. }
  destruct (_firmware_version p) as [v|] eqn:Hv; [|apply Hread].
  destruct (clock (ticks w) - hours 24 >? _fw_last_read p);
    [apply Hread | exact Hk].
Qed.

Lemma checked_firmware_version clock transport fuel :
  preserves cache_checked (firmware_version clock transport fuel).
Proof.
  intros p w Hc c b7 Hcache.
  destruct (firmware_version_keeps_cache clock transport fuel p w) as [Hsame _].
  rewrite Hsame in Hcache. apply Hc, Hcache.
Qed.

Lemma rejects_false fw c b7 :
  rejects fw c (byte_val b7) = false -> byte_val b7 <= 100 /\ 0 < sum c.
Proof.
  unfold rejects. intros H.
  apply orb_false_elim in H as [H H3].
  apply orb_false_elim in H as [H1 _].
  pose proof (sum_nonneg c).
  destruct (Z.gtb_spec (byte_val b7) 100); [discriminate|].
  destruct (Z.eqb_spec (sum c) 0); [discriminate | lia].
Qed.

Lemma sound_back_off clock :
  preserves (fun q => battery_known q /\ cache_checked q) (back_off clock).
Proof.
  apply (preserves_back_off (fun q => battery_known q /\ cache_checked q)).
  intros t p H. exact H.
Qed.

Lemma sound_fill_cache clock transport fuel :
  preserves (fun q => battery_known q /\ cache_checked q)
    (fill_cache clock transport fuel).
Proof.
  intros p w [Hk Hc]. rewrite fill_cache_cases.
  pose proof (known_firmware_version clock transport fuel p (count_fill w) Hk)
    as Hk1.
  pose proof (checked_firmware_version clock transport fuel p (count_fill w) Hc)
    as Hc1.
  destruct (firmware_version clock transport fuel p (count_fill w))
    as [fw p1 w1| |] eqn:Hfw; simpl in *; auto.
  destruct (truthy fw) eqn:Ht; [|apply sound_back_off; auto].
  destruct (write_read_ble transport fuel (_mac p1) (retries p1)
              (ble_timeout p1) w1) as [data w2|]; simpl; auto.
  destruct (truthy_Some _ Ht) as [v ->].
  rewrite (after_measurement_cases clock data p1 w2 v
             (firmware_version_returns_field _ _ _ _ _ _ _ _ Hfw)).
  assert (Hempty : battery_known (with_cache None p1)
                   /\ cache_checked (with_cache None p1)).
  { split; [exact Hk1 | intros c' b' [=]]. }
  cbv zeta. destruct data as [c|]; [|apply sound_back_off; exact Hempty].
  destruct (c !! 7%nat) as [b7|] eqn:H7; simpl.
  - destruct (rejects v c (byte_val b7)) eqn:Hrej;
      [apply sound_back_off; exact Hempty|]. simpl.
    split; [exact Hk1|]. intros c' b' [= <-] Hb'.
    rewrite H7 in Hb'. injection Hb' as <-.
    apply (rejects_false v c b7 Hrej).
  - split; [exact Hk1|]. intros c' b' [= <-] Hb'. congruence.
Qed.

Lemma sound_firmware_version clock transport fuel :
  preserves (fun q => battery_known q /\ cache_checked q)
    (firmware_version clock transport fuel).
Proof.
  intros p w [Hk Hc]. split.
  - apply known_firmware_version, Hk.
  - apply checked_firmware_version, Hc.
Qed.

Lemma config_invoke clock transport fuel q p w :
  config (poller_of (invoke clock transport fuel q p w)) = config p.
Proof.
  apply (preserves_invoke (fun r => config r = config p)); auto.
  - apply frame_firmware_version; auto.
  - apply frame_fill_cache; auto.
Qed.

Lemma reachable_sound clock transport mac cache_timeout retries p w :
  reachable clock transport mac cache_timeout retries p w ->
  config p = (mac, seconds cache_timeout, retries, 10)
  /\ battery_known p /\ cache_checked p.
Proof.
  induction 1 as [w|p w fuel q _ (Hcfg & Hk & Hc) _].
  - split; [reflexivity|]. split.
    + intros Hne. exfalso. apply Hne. reflexivity.
    + intros c b7 [=].
  - split; [rewrite config_invoke; exact Hcfg|].
    apply (preserves_invoke (fun r => battery_known r /\ cache_checked r));
      auto.
    + apply sound_firmware_version.
    + apply sound_fill_cache.
Qed.

(** In every state of a poller built by [__init__] and used through its
    methods: the address, the cache timeout, the retry bound and the BLE
    timeout are the ones set at construction; if a firmware version is
    stored then a battery level between 0 and 255 is stored too; and a
    cache long enough to have a byte 7 has it at most 100 and does not sum
    to zero. *)
Theorem invariants_of_a_poller_in_use :
  forall clock transport (mac : string) (cache_timeout retries0 : Z)
         (p : MiFloraPoller) (w : world),
    reachable clock transport mac cache_timeout retries0 p w ->
    (_mac p = mac /\ _cache_timeout p = seconds cache_timeout
     /\ retries p = retries0 /\ ble_timeout p = 10)
    /\ (_firmware_version p <> None ->
        exists b, battery p = Some b /\ 0 <= b <= 255)
    /\ (forall c b7, _cache p = Some c -> c !! 7%nat = Some b7 ->
                     byte_val b7 <= 100 /\ 0 < sum c).
Proof.
  intros clock transport mac cache_timeout retries0 p w Hreach.
  destruct (reachable_sound _ _ _ _ _ _ _ Hreach) as (Hcfg & Hk & Hc).
  unfold config in Hcfg. injection Hcfg as Hm Ht Hr Hb.
  split; [auto|]. split; [exact Hk | exact Hc].
Qed.

Lemma invariants_of_a_poller_in_use_witness :
  let dev := device v265 (fun _ => payload_e2e) in
  let built := __init__ (frozen 0) mac0 600 3 world0 in
  let r := invoke (frozen 0) dev 1 (ParameterValue MI_LIGHT true)
             (fst built) (snd built) in
  retries (poller_of r) = 3 /\ _cache (poller_of r) = Some payload_e2e.
Proof.
  intros dev built r.
  destruct (invariants_of_a_poller_in_use (frozen 0) dev mac0 600 3
              (poller_of r) (world_of r)) as ((_ & _ & Hr & _) & _).
  - apply (reach_call (frozen 0) dev mac0 600 3 (fst built) (snd built) 1
             (ParameterValue MI_LIGHT true)).
    + apply reach_init.
    + reflexivity.
  - split; [exact Hr | reflexivity].
Defined.

Lemma parameter_value_Ok clock transport fuel parameter read_cached p w
      v p' w' :
  String.eqb parameter MI_BATTERY = false ->
  parameter_value clock transport fuel parameter read_cached p w
    = Ok v p' w' ->
  cache_usable p' = true
  /\ (exists u, locked_refresh clock transport fuel read_cached p w
                = Ok u p' w')
  /\ exists res, _parse_data p' w' = Ok res p' w'
                 /\ res !! parameter = Some v.
Proof.
  intros Hb H. rewrite (parameter_value_field _ _ _ _ _ _ _ Hb) in H.
  destruct (locked_refresh clock transport fuel read_cached p w)
    as [u p1 w1| |]; try discriminate.
  destruct (cache_usable p1) eqn:Hu.
  - destruct (parse_data_usable p1 w1 Hu)
      as (data & d0 & d1 & d3 & d4 & d7 & d8 & d9 & Hc & H7 & Hparse).
    revert H. unfold serve_or_fail. step. rewrite Hu, Hparse.
    destruct (_ !! parameter) as [v'|] eqn:Hlook; [|discriminate].
    intros [= <- <- <-]. split; [exact Hu|]. split; [exists u; reflexivity|].
    eexists. split; [exact Hparse | exact Hlook].
  - rewrite (serve_or_fail_without_cache _ _ _ _ _ _ Hu) in H.
    destruct (fill_cache clock transport fuel p1 w1); discriminate.
Qed.

(** On a poller in use, a moisture that [parameter_value] returns is an
    integer between 0 and 100: what is served comes from a 16-byte cache,
    and such a cache has passed the check on byte 7. *)
Theorem served_moisture_is_a_percentage :
  forall clock transport (mac : string) (cache_timeout retries0 : Z)
         (p : MiFloraPoller) (w : world) (fuel : nat) (read_cached : bool)
         v p' w',
    reachable clock transport mac cache_timeout retries0 p w ->
    parameter_value clock transport fuel MI_MOISTURE read_cached p w
      = Ok v p' w' ->
    exists m, v = VInt m /\ 0 <= m <= 100.
Proof.
  intros clock transport mac cache_timeout retries0 p w fuel read_cached
    v p' w' Hreach H.
  assert (Hreach' : reachable clock transport mac cache_timeout retries0 p' w').
  { pose proof (reach_call clock transport mac cache_timeout retries0 p w fuel
                  (ParameterValue MI_MOISTURE read_cached) Hreach) as Hcall.
    simpl in Hcall. rewrite H in Hcall. apply Hcall. reflexivity. }
  destruct (reachable_sound _ _ _ _ _ _ _ Hreach') as (_ & _ & Hc).
  destruct (parameter_value_Ok clock transport fuel MI_MOISTURE read_cached
              p w v p' w' eq_refl H)
    as (Hu & _ & res & Hparse & Hlook).
  destruct (parse_data_usable p' w' Hu)
    as (data & d0 & d1 & d3 & d4 & d7 & d8 & d9 & Hcache & H7 & Hparse').
  rewrite Hparse' in Hparse. injection Hparse as <-.
  unfold MI_TEMPERATURE, MI_MOISTURE, MI_LIGHT, MI_CONDUCTIVITY in Hlook.
  simplify_map_eq. exists (byte_val d7). split; [reflexivity|].
  pose proof (byte_val_bound d7). destruct (Hc data d7 Hcache H7). lia.
Qed.

Lemma served_moisture_is_a_percentage_witness :
  let dev := device v265 (fun _ => payload_e2e) in
  let built := __init__ (frozen 0) mac0 600 3 world0 in
  let r := parameter_value (frozen 0) dev 1 MI_MOISTURE true
             (fst built) (snd built) in
  returned r = Some (VInt 45) /\ exists m, VInt 45 = VInt m /\ 0 <= m <= 100.
Proof.
  intros dev built r. split; [reflexivity|].
  apply (served_moisture_is_a_percentage (frozen 0) dev mac0 600 3
           (fst built) (snd built) 1 true (VInt 45)
           (poller_of r) (world_of r)).
  - apply reach_init.
  - reflexivity.
Defined.

(** On a poller in use, [battery_level] does not raise [AttributeError],
    and the level it returns is between 0 and 255; so for
    [parameter_value] asked for the battery. *)
Theorem battery_level_of_a_poller_in_use :
  forall clock transport (mac : string) (cache_timeout retries0 : Z)
         (p : MiFloraPoller) (w : world) (fuel : nat) (read_cached : bool),
    reachable clock transport mac cache_timeout retries0 p w ->
    (forall e, raised (battery_level clock transport fuel p w) = Some e ->
               e = IndexError)
    /\ (forall b, returned (battery_level clock transport fuel p w) = Some b ->
                  0 <= b <= 255)
    /\ (forall v, returned (parameter_value clock transport fuel MI_BATTERY
                              read_cached p w) = Some v ->
                  exists b, v = VInt b /\ 0 <= b <= 255).
Proof.
  intros clock transport mac cache_timeout retries0 p w fuel read_cached
    Hreach.
  destruct (reachable_sound _ _ _ _ _ _ _ Hreach) as (_ & Hk & _).
  assert (Hbat : forall e, raised (battery_level clock transport fuel p w)
                           = Some e -> e = IndexError).
  { unfold battery_level. step.
    destruct (firmware_version clock transport fuel p w)
      as [v p1 w1|e1 p1 w1|] eqn:Hfw; simpl; [| |discriminate].
    - destruct (firmware_version_battery _ _ _ _ _ _ _ _ Hk Hfw)
        as (b & -> & _). discriminate.
    - intros e [= <-]. apply (firmware_version_raises _ _ _ _ _ _ _ _ Hfw). }
  assert (Hret : forall b, returned (battery_level clock transport fuel p w)
                           = Some b -> 0 <= b <= 255).
  { unfold battery_level. step.
    destruct (firmware_version clock transport fuel p w)
      as [v p1 w1|e1 p1 w1|] eqn:Hfw; simpl; try discriminate.
    destruct (firmware_version_battery _ _ _ _ _ _ _ _ Hk Hfw)
      as (b & -> & Hb). intros b' [= <-]. exact Hb. }
  split; [exact Hbat|]. split; [exact Hret|].
  intros v. unfold parameter_value. simpl String.eqb. cbv iota. step.
  destruct (battery_level clock transport fuel p w) as [b p1 w1| |] eqn:Hb;
    simpl; try discriminate.
  intros [= <-]. exists b. split; [reflexivity|]. apply Hret. reflexivity.
Qed.

Lemma battery_level_of_a_poller_in_use_witness :
  let dev := device v265 (fun _ => payload_e2e) in
  let built := __init__ (frozen 0) mac0 600 3 world0 in
  returned (battery_level (frozen 0) dev 1 (fst built) (snd built)) = Some 99
  /\ 0 <= 99 <= 255.
Proof.
  intros dev built. split; [reflexivity|].
  destruct (battery_level_of_a_poller_in_use (frozen 0) dev mac0 600 3
              (fst built) (snd built) 1 true) as (_ & H & _).
  - apply reach_init.
  - apply H. reflexivity.
Defined.

(** ** Serving from the cache *)

Lemma parse_data_any_world p w w2 :
  _parse_data p w2
  = match _parse_data p w with
    | Ok res _ _ => Ok res p w2
    | Raise e _ _ => Raise e p w2
    | OutOfFuel _ _ => OutOfFuel p w2
    end.
Proof.
  unfold _parse_data. step. destruct (_cache p) as [data|]; [|reflexivity].
  destruct (data !! 1%nat); step; [|reflexivity].
  destruct (data !! 0%nat); step; [|reflexivity].
  destruct (data !! 7%nat); step; [|reflexivity].
  destruct (data !! 4%nat); step; [|reflexivity].
  destruct (data !! 3%nat); step; [|reflexivity].
  destruct (data !! 9%nat); step; [|reflexivity].
  destruct (data !! 8%nat); step; reflexivity.
Qed.

Lemma locked_refresh_Ok_last_read clock transport fuel read_cached p w
      u p1 w1 :
  locked_refresh clock transport fuel read_cached p w = Ok u p1 w1 ->
  _last_read p1 <> None.
Proof.
  rewrite locked_refresh_eq.
  assert (Hfill : forall w0, fill_cache clock transport fuel p w0
                             = Ok u p1 w1 -> _last_read p1 <> None).
  { intros w0 H. apply (fill_cache_returns _ _ _ _ _ _ _ _ H). }
  destruct (negb read_cached); [apply Hfill|].
  destruct (_last_read p) as [l|] eqn:Hl; [|apply Hfill].
  destruct (cache_expired _ _ _) as [[|]|]; [apply Hfill | | discriminate].
  intros [= _ <- _]. rewrite Hl. discriminate.
Qed.

(** When [parameter_value] returns a field, the poller holds a 16-byte
    cache and a time of last read.  Asking again for the same field, with
    [now - cache_timeout] a time [datetime] can hold and the cache not
    expired, gives the same value from the same poller, with one clock
    read and nothing else: no session, no call of a primitive, no
    [fill_cache].  If [now - cache_timeout] cannot be computed, asking
    again raises [OverflowError]. *)
Theorem cache_hit_repeats_the_value :
  forall clock transport (fuel fuel' : nat) (parameter : string)
         (read_cached : bool) (p : MiFloraPoller) (w : world) v p1 w1,
    String.eqb parameter MI_BATTERY = false ->
    parameter_value clock transport fuel parameter read_cached p w
      = Ok v p1 w1 ->
    cache_usable p1 = true
    /\ exists last_read,
         _last_read p1 = Some last_read
         /\ (in_datetime_range (clock (ticks w1) - _cache_timeout p1) = true ->
             clock (ticks w1) - _cache_timeout p1 <= last_read ->
             parameter_value clock transport fuel' parameter true p1 w1
             = Ok v p1 (tick w1))
         /\ (in_datetime_range (clock (ticks w1) - _cache_timeout p1) = false ->
             parameter_value clock transport fuel' parameter true p1 w1
             = Raise OverflowError p1 (tick w1)).
Proof.
  intros clock transport fuel fuel' parameter read_cached p w v p1 w1 Hb H.
  destruct (parameter_value_Ok _ _ _ _ _ _ _ _ _ _ Hb H)
    as (Hu & (u & Hlock) & res & Hparse & Hlook).
  split; [exact Hu|].
  pose proof (locked_refresh_Ok_last_read _ _ _ _ _ _ _ _ _ Hlock) as Hset.
  destruct (_last_read p1) as [l|] eqn:Hl; [|contradiction].
  exists l. split; [reflexivity|].
  rewrite (parameter_value_field _ _ _ _ _ _ _ Hb), locked_refresh_eq, Hl.
  simpl negb. cbv iota. unfold cache_expired. split.
  - intros Hrange Hfresh. rewrite Hrange.
    destruct (Z.gtb_spec (clock (ticks w1) - _cache_timeout p1) l); [lia|].
    unfold serve_or_fail. step. rewrite Hu.
    rewrite (parse_data_any_world p1 w1 (tick w1)), Hparse, Hlook.
    reflexivity.
  - intros Hrange. rewrite Hrange. reflexivity.
Qed.

Lemma cache_hit_repeats_the_value_witness :
  let dev := device v265 (fun _ => payload_e2e) in
  let built := __init__ (frozen 0) mac0 600 3 world0 in
  let r := parameter_value (frozen 0) dev 1 MI_LIGHT true
             (fst built) (snd built) in
  parameter_value (frozen 0) dead_transport 0 MI_LIGHT true
    (poller_of r) (world_of r)
  = Ok (VInt 11264) (poller_of r) (tick (world_of r)).
Proof.
  intros dev built r.
  destruct (cache_hit_repeats_the_value (frozen 0) dev 1 0 MI_LIGHT true
              (fst built) (snd built) (VInt 11264) (poller_of r) (world_of r)
              eq_refl eq_refl) as (_ & l & Hl & Hagain & _).
  injection Hl as <-. apply Hagain; [reflexivity|].
  vm_compute. discriminate.
Defined.

(** With a time of last read that has not expired and a cache that is not
    a 16-byte payload (empty after a failed fill, say), [parameter_value]
    for a field never returns a value and runs [fill_cache] exactly once,
    after the lock: the back-off does not spare the device this fill.  The
    call ends as that fill ends, with the [IOError] if the fill returns.
    (If [now - cache_timeout] is not a time [datetime] can hold, the call
    raises [OverflowError] under the lock, before any fill.) *)
Theorem unusable_cache_refills_on_each_call :
  forall clock transport (fuel : nat) (parameter : string)
         (p : MiFloraPoller) (w : world) (last_read : Z),
    String.eqb parameter MI_BATTERY = false ->
    cache_usable p = false ->
    _last_read p = Some last_read ->
    let r := parameter_value clock transport fuel parameter true p w in
    (in_datetime_range (clock (ticks w) - _cache_timeout p) = true ->
     clock (ticks w) - _cache_timeout p <= last_read ->
     returned r = None
     /\ fills (world_of r) = S (fills w)
     /\ r = match fill_cache clock transport fuel p (tick w) with
            | Ok _ p1 w1 =>
                Raise (IOError "Could not read data from Mi Flora sensor %s"
                         (_mac p1)) p1 w1
            | Raise e p1 w1 => Raise e p1 w1
            | OutOfFuel p1 w1 => OutOfFuel p1 w1
            end)
    /\ (in_datetime_range (clock (ticks w) - _cache_timeout p) = false ->
        r = Raise OverflowError p (tick w)).
Proof.
  intros clock transport fuel parameter p w l Hb Hu Hl r. subst r.
  rewrite (parameter_value_field _ _ _ _ _ _ _ Hb).
  rewrite locked_refresh_eq, Hl. simpl negb. cbv iota. unfold cache_expired.
  split.
  - intros Hrange Hfresh. rewrite Hrange.
    destruct (Z.gtb_spec (clock (ticks w) - _cache_timeout p) l); [lia|].
    rewrite (serve_or_fail_without_cache _ _ _ _ _ _ Hu).
    pose proof (fill_cache_counts clock transport fuel p (tick w)) as Hcount.
    destruct (fill_cache clock transport fuel p (tick w)); simpl in *; auto.
  - intros Hrange. rewrite Hrange. reflexivity.
Qed.

Lemma unusable_cache_refills_on_each_call_witness :
  let p := with_last_read (Some 0) (holding None (Some "2.6.5")) in
  fills (world_of (parameter_value (frozen (seconds 10)) dead_transport 1
                     MI_LIGHT true p world0)) = 1%nat.
Proof.
  intros p.
  destruct (unusable_cache_refills_on_each_call (frozen (seconds 10))
              dead_transport 1 MI_LIGHT p world0 0 eq_refl eq_refl eq_refl)
    as [H _].
  destruct H as (_ & H & _);
    [reflexivity | vm_compute; discriminate | exact H].
Defined.

(** Asked for the battery, [parameter_value] is [battery_level]: it
    leaves the cache and the time of last read alone and never runs
    [fill_cache]. *)
Theorem battery_request_bypasses_the_cache :
  forall clock transport (fuel : nat) (read_cached : bool)
         (p : MiFloraPoller) (w : world),
    let r := parameter_value clock transport fuel MI_BATTERY read_cached p w in
    _cache (poller_of r) = _cache p
    /\ _last_read (poller_of r) = _last_read p
    /\ fills (world_of r) = fills w
    /\ returned r = VInt <$> returned (battery_level clock transport fuel p w)
    /\ raised r = raised (battery_level clock transport fuel p w).
Proof.
  intros clock transport fuel read_cached p w r. subst r.
  unfold parameter_value. simpl String.eqb. cbv iota.
  unfold battery_level. step.
  destruct (firmware_version_keeps_cache clock transport fuel p w)
    as [Hcache Hlast].
  pose proof (moves_firmware_version (same fills) (same_refl _) (same_trans _)
                ltac:(reflexivity) ltac:(reflexivity) ltac:(reflexivity)
                clock transport fuel p w) as Hfills.
  unfold same in Hfills.
  destruct (firmware_version clock transport fuel p w) as [v p1 w1| |];
    simpl in *; auto.
  destruct (battery p1); simpl; auto.
Qed.

(** ** Short answers of the firmware characteristic *)

(** Let no version be stored and the firmware read return [res].  If [res]
    is empty, [firmware_version] raises [IndexError] at [res[0]], with the
    time of the check already stamped and nothing else changed.  If [res]
    has one or two bytes, the first becomes the battery level and the
    version stored is the empty string; then, until that check is more than
    24 hours old, [fill_cache] takes the version for unavailable: it reads
    nothing from the device and only backs off, storing
    [now - cache_timeout + 300 s] as the time of last read, or raising
    [OverflowError] where [datetime] cannot hold that time. *)
Theorem short_firmware_answers :
  forall clock transport (fuel : nat) (p : MiFloraPoller) (w : world)
         (res : list Byte.byte) (w' : world),
    _firmware_version p = None ->
    read_ble transport fuel (_mac p) 0x38 (retries p) 20 (tick w)
      = Returns (Some res) w' ->
    let stamped := with_fw_last_read (clock (ticks w)) p in
    (res = [] ->
     firmware_version clock transport fuel p w = Raise IndexError stamped w')
    /\ (forall b rest,
          res = b :: rest -> (length rest <= 1)%nat ->
          let p1 := with_firmware_version (Some ""%string)
                      (with_battery (Some (byte_val b)) stamped) in
          firmware_version clock transport fuel p w
            = Ok (Some ""%string) p1 w'
          /\ forall (fuel2 : nat) (w2 : world),
               clock (ticks w2) - hours 24 <= clock (ticks w) ->
               fill_cache clock transport fuel2 p1 w2
               = match back_off_time (clock (S (ticks w2)))
                         (_cache_timeout p) with
                 | Some t =>
                     Ok tt (with_last_read (Some t) p1)
                       (tick (tick (count_fill w2)))
                 | None =>
                     Raise OverflowError p1 (tick (tick (count_fill w2)))
                 end).
Proof.
  intros clock transport fuel p w res w' Hnone Hread stamped.
  assert (Hfw : firmware_version clock transport fuel p w
                = match res !! 0%nat with
                  | Some b =>
                      Ok (Some (chr_join (drop 2 res)))
                         (with_firmware_version (Some (chr_join (drop 2 res)))
                            (with_battery (Some (byte_val b)) stamped)) w'
                  | None => Raise IndexError stamped w'
                  end).
  { rewrite firmware_version_cases, Hnone, firmware_read_eq. simpl.
    rewrite Hread. reflexivity. }
  split.
  - intros ->. exact Hfw.
  - intros b rest -> Hlen p1.
    assert (Hdrop : chr_join (drop 2 (b :: rest)) = ""%string).
    { destruct rest as [|b1 [|b2 rest]]; simpl in *; try reflexivity. lia. }
    rewrite Hdrop in Hfw. simpl in Hfw. split; [exact Hfw|].
    intros fuel2 w2 Hfresh.
    assert (Hcached : firmware_version clock transport fuel2 p1 (count_fill w2)
                      = Ok (Some ""%string) p1 (tick (count_fill w2))).
    { rewrite firmware_version_cases. simpl.
      destruct (Z.gtb_spec (clock (ticks w2) - hours 24) (clock (ticks w)));
        [lia | reflexivity]. }
    rewrite (fill_cache_no_firmware _ _ _ _ _ _ _ _ Hcached eq_refl).
    exact (back_off_eq clock p1 (tick (count_fill w2))).
Qed.

Lemma short_firmware_answers_witness :
  let dev := device [] (fun _ => payload_e2e) in
  let built := __init__ (frozen 0) mac0 600 3 world0 in
  returned (firmware_version (frozen 0) dev 1 (fst built) (snd built))
  = Some (Some ""%string).
Proof.
  intros dev built.
  destruct (short_firmware_answers (frozen 0) dev 1 (fst built) (snd built)
              (fw_answer [])
              {| ticks := 2; sessions := 1; channel_calls := 1; fills := 0 |}
              eq_refl eq_refl) as [_ H].
  destruct (H Byte.x63 [Byte.x00] eq_refl ltac:(simpl; lia)) as [Hfw _].
  rewrite Hfw. reflexivity.
Defined.

(** ** How many times a method calls the primitives *)

Lemma retry_counts_one_call transport fuel mac o retries w :
  channel_calls (outcome_world (retry transport fuel mac o retries w))
  = S (channel_calls w).
Proof.
  unfold retry. destruct (0 <=? retries); simpl; [|reflexivity].
  apply (moves_while_True (same channel_calls) (same_refl _) (same_trans _)
           ltac:(reflexivity)).
Qed.

Lemma firmware_version_calls clock transport fuel p w :
  (channel_calls (world_of (firmware_version clock transport fuel p w))
   <= channel_calls w + 1)%nat.
Proof.
  rewrite firmware_version_cases.
  assert (Hread : forall w0,
            channel_calls (world_of (firmware_read clock transport fuel p w0))
            = S (channel_calls w0)).
  { intros w0. apply firmware_read_stamps. }
  destruct (_firmware_version p); [|rewrite Hread; lia].
  destruct (clock (ticks w) - hours 24 >? _fw_last_read p);
    [rewrite Hread|]; simpl; lia.
Qed.

Lemma fill_cache_calls clock transport fuel p w :
  (channel_calls (world_of (fill_cache clock transport fuel p w))
   <= channel_calls w + 2)%nat.
Proof.
  rewrite fill_cache_cases.
  pose proof (firmware_version_calls clock transport fuel p (count_fill w))
    as Hfw.
  destruct (firmware_version clock transport fuel p (count_fill w))
    as [fw p1 w1| |]; simpl in *; try lia.
  destruct (truthy fw);
    [|rewrite back_off_eq; destruct (back_off_time _ _); simpl; lia].
  pose proof (retry_counts_one_call transport fuel (_mac p1)
                (WriteThenRead 51 [Byte.xa0; Byte.x1f] 53) (retries p1) w1)
    as Hm.
  fold (write_read_ble transport fuel (_mac p1) (retries p1) (ble_timeout p1) w1)
    in Hm.
  destruct (write_read_ble transport fuel (_mac p1) (retries p1)
              (ble_timeout p1) w1) as [data w2|a w2]; simpl in *; [|lia].
  pose proof (moves_after_measurement (same channel_calls) (same_refl _)
                (same_trans _) ltac:(reflexivity) clock data p1 w2) as Ha.
  unfold same in Ha. lia.
Qed.

(** Calls of the retry primitives per call of a method: [name] makes
    exactly one; [firmware_version] and [battery_level] at most one;
    [fill_cache] at most two; [parameter_value] at most four (two fills,
    each with a firmware read and a measurement read), whatever the
    results. *)
Theorem primitive_calls_per_method :
  forall clock transport (fuel : nat) (parameter : string)
         (read_cached : bool) (p : MiFloraPoller) (w : world),
    channel_calls (world_of (name transport fuel p w)) = S (channel_calls w)
    /\ (channel_calls (world_of (firmware_version clock transport fuel p w))
        <= channel_calls w + 1)%nat
    /\ (channel_calls (world_of (battery_level clock transport fuel p w))
        <= channel_calls w + 1)%nat
    /\ (channel_calls (world_of (fill_cache clock transport fuel p w))
        <= channel_calls w + 2)%nat
    /\ (channel_calls
          (world_of (parameter_value clock transport fuel parameter
                       read_cached p w))
        <= channel_calls w + 4)%nat.
Proof.
  intros clock transport fuel parameter read_cached p w.
  pose proof (firmware_version_calls clock transport fuel p w) as Hfw.
  assert (Hbat : (channel_calls
                    (world_of (battery_level clock transport fuel p w))
                  <= channel_calls w + 1)%nat)
    by (rewrite battery_level_world; exact Hfw).
  split; [|split; [exact Hfw|split; [exact Hbat|split]]].
  - rewrite name_eq.
    pose proof (retry_counts_one_call transport fuel (_mac p) (CharRead 3)
                  (retries p) w) as H.
    unfold read_ble.
    destruct (retry transport fuel (_mac p) (CharRead 3) (retries p) w)
      as [[bs|] w1|a w1]; exact H.
  - apply fill_cache_calls.
  - unfold parameter_value. destruct (String.eqb parameter MI_BATTERY).
    + step.
      destruct (battery_level clock transport fuel p w); simpl in *; lia.
    + assert (Hlock : (channel_calls
                         (world_of (locked_refresh clock transport fuel
                                      read_cached p w))
                       <= channel_calls w + 2)%nat).
      { rewrite locked_refresh_eq.
        destruct (negb read_cached); [apply fill_cache_calls|].
        destruct (_last_read p) as [l|]; [|apply fill_cache_calls].
        destruct (cache_expired _ _ _) as [[|]|]; try (simpl; lia).
        apply (fill_cache_calls clock transport fuel p (tick w)). }
      unfold mbind, M_bind, bind.
      destruct (locked_refresh clock transport fuel read_cached p w)
        as [u p1 w1| |]; simpl in *; try lia.
      destruct (cache_usable p1) eqn:Hu.
      * rewrite (serve_from_cache _ _ _ _ _ _ Hu). lia.
      * rewrite (serve_or_fail_without_cache _ _ _ _ _ _ Hu).
        pose proof (fill_cache_calls clock transport fuel p1 w1) as Hfill.
        destruct (fill_cache clock transport fuel p1 w1); simpl in *; lia.
Qed.
